(** * Leads backend: lead listing, CSV ingestion and the startup gate

    A shallow embedding of [main.py], [models.py], [schema.py] and
    [dbconf.py].  Handlers that use a SQLAlchemy session are written in a
    state-and-exception monad over the session and the lines printed; the
    startup checks are written in the same monad over a trace of the
    checks performed (their printed diagnostics are left out).

    Conventions.
    - A Python [str] is a [string] whose characters are the code points
      below 256.
    - A table with an integer primary key is a finite map from the key to
      the remaining columns.  Keys are unbounded integers and texts are
      unbounded: a value the database would refuse (too wide for its
      column) is refused at [commit], which may raise.
    - Library code (UTF-8 decoding, the csv reader, the database driver,
      Alembic) is not re-implemented: its outcome at each call is a field
      of [Externals] (request handling) or of [World] (startup). *)

From stdpp Require Import gmap strings list fin_maps.
From Stdlib Require Import ZArith Ascii.

Local Open Scope Z_scope.
Local Open Scope string_scope.
Local Open Scope list_scope.

(** ** Python values, exceptions and effects *)

Module Py.

(** The exception classes that occur in the four files.  All of them
    derive from [Exception]; [HTTPException] carries its status code and
    its detail.  A [Message] is a text given literally or built by an
    f-string that formats an exception, in which case the exception is
    kept. *)
Inductive Exn : Type :=
| KeyError (key : string)
| TypeError
| ValueError
| UnicodeDecodeError
| csv_Error
| SQLAlchemyError
| OSError
| RuntimeError (msg : string)
| NameError (name : string)
| ResponseValidationError
| HTTPException (status_code : Z) (detail : Message)
with Message : Type :=
| Text (s : string)
| FString (prefix : string) (e : Exn).

(** [isinstance(e, SQLAlchemyError)] *)
Definition is_SQLAlchemyError (e : Exn) : bool :=
  match e with SQLAlchemyError => true | _ => false end.

Inductive Result (A : Type) : Type :=
| Ok (a : A)
| Raise (e : Exn).
Arguments Ok {A} a.
Arguments Raise {A} e.

(** A computation over a mutable state [S] that returns or raises.  The
    state reached when an exception is raised is kept: Python does not
    undo mutations on the way out. *)
Definition M (S A : Type) : Type := S → Result A * S.

Definition ret {S A} (a : A) : M S A := λ s, (Ok a, s).
Definition raise {S A} (e : Exn) : M S A := λ s, (Raise e, s).
Definition bind {S A B} (m : M S A) (k : A → M S B) : M S B :=
  λ s, match m s with
       | (Ok a, s') => k a s'
       | (Raise e, s') => (Raise e, s')
       end.
(** [try: body  except Exception as e: handler] *)
Definition try_except {S A} (body : M S A) (handler : Exn → M S A) : M S A :=
  λ s, match body s with
       | (Ok a, s') => (Ok a, s')
       | (Raise e, s') => handler e s'
       end.
Definition lift {S A} (r : Result A) : M S A := λ s, (r, s).
Definition modify {S} (f : S → S) : M S unit := λ s, (Ok tt, f s).

#[global] Instance M_ret S : MRet (M S) := @ret S.
#[global] Instance M_bind S : MBind (M S) := λ A B k m, bind m k.

#[global] Instance Result_ret : MRet Result := @Ok.
#[global] Instance Result_bind : MBind Result :=
  λ A B k r, match r with Ok a => k a | Raise e => Raise e end.

(** Truthiness of an [Optional[str]], as tested by [if os.getenv(...)]. *)
Definition truthy (v : option string) : bool :=
  match v with
  | Some s => negb (String.eqb s "")
  | None => false
  end.

(** *** [int(x)] for [x : Optional[str]]

    [int(None)] raises [TypeError].  For a [str], surrounding white space
    is dropped, one sign is allowed, and the rest is decimal digits with
    single underscores between digits, at most [int_max_str_digits] of
    them; anything else raises [ValueError]. *)

(** The white space [int] drops: tab to carriage return and the space,
    and, of the code points from 128 on, the next-line and no-break-space
    characters.  The separators U+001C to U+001F are not dropped. *)
Definition is_space (c : ascii) : bool :=
  let n := N_of_ascii c in
  (((9 <=? n) && (n <=? 13)) || (n =? 32) || (n =? 133) || (n =? 160))%N.

(** The default of [sys.get_int_max_str_digits()]. *)
Definition int_max_str_digits : N := 4300.

Definition digit_value (c : ascii) : option Z :=
  let n := N_of_ascii c in
  if ((48 <=? n) && (n <=? 57))%N then Some (Z.of_N n - 48) else None.

Fixpoint lstrip (s : string) : string :=
  match s with
  | String c rest => if is_space c then lstrip rest else s
  | EmptyString => EmptyString
  end.

Definition strip (s : string) : string :=
  String.rev (lstrip (String.rev (lstrip s))).

(** [prev] tells whether the previous character was a digit: an
    underscore is accepted only between two digits. *)
Fixpoint digits (s : string) (acc : Z) (prev : bool) : option Z :=
  match s with
  | EmptyString => if prev then Some acc else None
  | String c rest =>
      if Ascii.eqb c "_"%char then
        if prev then digits rest acc false else None
      else
        match digit_value c with
        | Some d => digits rest (10 * acc + d) true
        | None => None
        end
  end.

(** The number of digit characters, leading zeros included, underscores
    not. *)
Fixpoint count_digits (s : string) : N :=
  match s with
  | EmptyString => 0%N
  | String c rest =>
      match digit_value c with
      | Some _ => N.succ (count_digits rest)
      | None => count_digits rest
      end
  end.

(** The digits after the sign: refused when there are more than
    [int_max_str_digits] of them. *)
Definition number (s : string) : option Z :=
  if (count_digits s <=? int_max_str_digits)%N then digits s 0 false
  else None.

Definition parse_int (s : string) : option Z :=
  match strip s with
  | String "-"%char rest => Z.opp <$> number rest
  | String "+"%char rest => number rest
  | body => number body
  end.

Definition int (x : option string) : Result Z :=
  match x with
  | None => Raise TypeError
  | Some s =>
      match parse_int s with
      | Some z => Ok z
      | None => Raise ValueError
      end
  end.

(** A [datetime], as a point on the time line. *)
Definition datetime : Type := Z.

(** A value of a JSON request body. *)
Inductive Json : Type :=
| JNull
| JString (s : string)
| JNumber (z : Z)
| JBool (b : bool).

End Py.
Import Py.

(** ** [models.py] *)

Module Models.

(** The nullable columns of [leads]: every one is [String(100),
    nullable=True]. *)
Record LeadCols : Type := mkCols {
  lead_name : option string;
  email : option string;
  source : option string;
  interest_level : option string;
  status : option string;
  salesperson : option string }.

(** [class Lead(Base)]: [id] is the primary key and is supplied by the
    caller, not generated. *)
Record Lead : Type := mkLead {
  id : Z;
  cols : LeadCols }.

(** A text of at most [n] characters, or NULL: what a nullable
    [String(n)] column declares. *)
Definition within (n : nat) (v : option string) : bool :=
  match v with
  | Some s => (String.length s <=? n)%nat
  | None => true
  end.

(** [class User(Base)]: a row of [users].  The columns declared
    [nullable=False] hold a value. *)
Module User.
Record t : Type := mk {
  id : Z;
  username : string;
  email : string;
  phone : option string;
  last_login : option datetime;
  is_active : bool;
  created_at : datetime;
  profile_picture : option string }.

(** The lengths the columns declare: [String(26)], [String(100)],
    [String(20)], [String(255)]. *)
Definition within_columns (u : t) : bool :=
  within 26 (Some (username u)) && within 100 (Some (email u))
  && within 20 (phone u) && within 255 (profile_picture u).
End User.

(** [class Post(Base)]: a row of [posts].  [content] is [Text,
    nullable=True]; [title] is [String(200)]. *)
Module Post.
Record t : Type := mk {
  id : Z;
  user_id : Z;
  title : string;
  content : option string;
  created_at : datetime;
  updated_at : datetime }.

Definition within_columns (p : t) : bool :=
  within 200 (Some (title p)).
End Post.

End Models.

(** The [leads] table: primary key to the other columns. *)
Abbreviation Table := (gmap Z Models.LeadCols).

(** ** What the csv module yields *)

(** A row dictionary of [csv.DictReader]: a header name is mapped to the
    field ([Some s]) or, when the line is too short, to [None]. *)
Abbreviation Row := (gmap string (option string)).

(** The iteration of a [csv.DictReader]: it yields rows until it is
    exhausted ([Stop]) or until reading the next line raises ([Abort]). *)
Inductive RowStream : Type :=
| Stop
| Yield (row : Row) (rest : RowStream)
| Abort (e : Exn).

Fixpoint yield_all (rows : list Row) : RowStream :=
  match rows with
  | [] => Stop
  | row :: rest => Yield row (yield_all rest)
  end.

(** ** Library behaviour taken as given *)

Class Externals : Type := {
  (** [contents.decode("utf-8")] *)
  decode : list Byte.byte → Result string;
  (** [csv.DictReader(StringIO(text))], iterated *)
  DictReader : string → RowStream;
  (** [Some e] when [db.merge(lead)] raises [e] *)
  merge_fault : Models.Lead → option Exn;
  (** [Some e] when [db.commit()] raises [e], given the table and the
      rows the session is about to write *)
  commit_fault : Table → Table → option Exn }.

(** ** The SQLAlchemy session ([SessionLocal] of [dbconf.py]) *)

Module Orm.

Inductive Call : Type :=
| CallMerge (lead : Models.Lead)
| CallCommit
| CallClose.

(** [table] is the committed content of [leads]; [pending] holds the rows
    merged into the session and not yet committed; [calls] records the
    session methods called, oldest first. *)
Record Session : Type := mkSession {
  table : Table;
  pending : Table;
  calls : list Call }.

Definition SessionLocal (db : Table) : Session :=
  {| table := db; pending := ∅; calls := [] |}.

Definition called (c : Call) (s : Session) : Session :=
  {| table := table s; pending := pending s; calls := calls s ++ [c] |}.

(** [db.merge(lead)]: the row with the primary key of [lead] takes every
    attribute of [lead], whether or not such a row existed. *)
Definition merge `{Externals} (lead : Models.Lead) : M Session unit :=
  λ s,
    let s := called (CallMerge lead) s in
    match merge_fault lead with
    | Some e => (Raise e, s)
    | None =>
        (Ok tt, {| table := table s;
                   pending := <[Models.id lead := Models.cols lead]> (pending s);
                   calls := calls s |})
    end.

(** [db.commit()]: the pending rows replace or extend the table. *)
Definition commit `{Externals} : M Session unit :=
  λ s,
    let s := called CallCommit s in
    match commit_fault (table s) (pending s) with
    | Some e => (Raise e, s)
    | None =>
        (Ok tt, {| table := pending s ∪ table s; pending := ∅; calls := calls s |})
    end.

(** [db.close()]: what was not committed is dropped. *)
Definition close (s : Session) : Session :=
  {| table := table s; pending := ∅; calls := calls s ++ [CallClose] |}.

(** The rows of the table as mapped objects. *)
Definition objects (t : Table) : list Models.Lead :=
  (λ kc, Models.mkLead kc.1 kc.2) <$> map_to_list t.

(** A query is the list of its WHERE criteria. *)
Record Query : Type := mkQuery { criteria : list (Models.Lead → bool) }.

(** [db.query(Lead)] *)
Definition query : Query := {| criteria := [] |}.

(** [query.filter(criterion)] *)
Definition filter (q : Query) (criterion : Models.Lead → bool) : Query :=
  {| criteria := criteria q ++ [criterion] |}.

(** [query.all()]: the rows that satisfy every criterion. *)
Definition all (q : Query) : M Session (list Models.Lead) :=
  λ s, (Ok (List.filter (λ l, forallb (λ c, c l) (criteria q))
                        (objects (table s))), s).

(** [Lead.id == v] *)
Definition eq_int (col : Models.Lead → Z) (v : Z) : Models.Lead → bool :=
  λ l, Z.eqb (col l) v.

(** [Lead.column == v] for a nullable text column: a NULL never
    compares equal. *)
Definition eq_str (col : Models.LeadCols → option string) (v : string)
  : Models.Lead → bool :=
  λ l, match col (Models.cols l) with
       | Some s => String.eqb s v
       | None => false
       end.

End Orm.

(** ** A request being handled *)

Module Request.

(** What a handler works on: the session it was given, and what it has
    printed so far, oldest line first. *)
Record t : Type := mk {
  session : Orm.Session;
  stdout : list Message }.

(** A method of the session, called by the handler as [db.method(...)]. *)
Definition db {A} (method : M Orm.Session A) : M t A :=
  λ h, let '(r, s) := method (session h) in (r, mk s (stdout h)).

(** [print(line)] *)
Definition print (line : Message) : M t unit :=
  modify (λ h, mk (session h) (stdout h ++ [line])).

(** [get_database_session] of [dbconf.py]: a fresh session for the
    request, closed on every exit path.  The result is the handler's
    outcome and the state it leaves. *)
Definition get_database_session {A} (handler : M t A) (table : Table)
  : Result A * t :=
  let '(r, h) := handler (mk (Orm.SessionLocal table) []) in
  (r, mk (Orm.close (session h)) (stdout h)).

End Request.

(** ** [schema.py] *)

Module Schema.

(** [class LeadRead(BaseModel)] with [from_attributes = True]. *)
Record LeadRead : Type := mkLeadRead {
  id : Z;
  lead_name : string;
  email : string;
  source : string;
  interest_level : string;
  status : string;
  salesperson : string }.

(** Validation of an attribute against [str = Field(None, max_length=n)].
    The annotation is [str], not [Optional[str]]: the value [None] is
    rejected.  The default [None] of the field is used only when the
    attribute is absent, which never happens for a mapped [Lead]. *)
Definition validate_str (max_length : option nat) (v : option string)
  : option string :=
  match v with
  | None => None
  | Some s =>
      match max_length with
      | Some n => if (String.length s <=? n)%nat then Some s else None
      | None => Some s
      end
  end.

(** [LeadRead.model_validate(lead)] *)
Definition model_validate (lead : Models.Lead) : option LeadRead :=
  let c := Models.cols lead in
  lead_name ← validate_str (Some 100%nat) (Models.lead_name c);
  email ← validate_str (Some 100%nat) (Models.email c);
  source ← validate_str None (Models.source c);
  interest_level ← validate_str None (Models.interest_level c);
  status ← validate_str None (Models.status c);
  salesperson ← validate_str None (Models.salesperson c);
  Some (mkLeadRead (Models.id lead) lead_name email source interest_level
                   status salesperson).

(** Validation of an attribute or of a body value against
    [Optional[str] = Field(None, max_length=n)]: [None] is accepted. *)
Definition validate_optional_str (max_length : option nat) (v : option string)
  : option (option string) :=
  match v with
  | None => Some None
  | Some s => Some <$> validate_str max_length (Some s)
  end.

(** [class UserRead(BaseModel)] with [from_attributes = True]. *)
Module UserRead.
Record t : Type := mk {
  id : Z;
  username : string;
  email : string;
  phone : option string;
  last_login : option datetime;
  is_active : bool;
  created_at : datetime;
  profile_picture : option string }.

(** [UserRead.model_validate(user)] *)
Definition model_validate (user : Models.User.t) : option t :=
  username ← validate_str (Some 26%nat) (Some (Models.User.username user));
  email ← validate_str (Some 100%nat) (Some (Models.User.email user));
  phone ← validate_optional_str (Some 20%nat) (Models.User.phone user);
  profile_picture ←
    validate_optional_str None (Models.User.profile_picture user);
  Some (mk (Models.User.id user) username email phone
           (Models.User.last_login user) (Models.User.is_active user)
           (Models.User.created_at user) profile_picture).
End UserRead.

(** [class PostRead(BaseModel)] with [from_attributes = True]:
    [content] and [title] are [str] with [max_length] 500 and 100. *)
Module PostRead.
Record t : Type := mk {
  id : Z;
  user_id : Z;
  content : string;
  title : string;
  created_at : datetime;
  updated_at : datetime }.

(** [PostRead.model_validate(post)] *)
Definition model_validate (post : Models.Post.t) : option t :=
  content ← validate_str (Some 500%nat) (Models.Post.content post);
  title ← validate_str (Some 100%nat) (Some (Models.Post.title post));
  Some (mk (Models.Post.id post) (Models.Post.user_id post) content title
           (Models.Post.created_at post) (Models.Post.updated_at post)).
End PostRead.

(** [class UserCreate(BaseModel)], validated from a JSON object. *)
Module UserCreate.
Record t : Type := mk {
  username : string;
  email : string;
  phone : option string;
  profile_picture : option string }.

(** A body value against [str = Field(..., max_length=n)]: the key must
    be there and hold a string. *)
Definition required_str (max_length : option nat) (v : option Json)
  : option string :=
  match v with
  | Some (JString s) => validate_str max_length (Some s)
  | _ => None
  end.

(** A body value against [Optional[str]] with default [None]: an
    absent key and [null] both give [None]; any other value must be a
    string. *)
Definition optional_str (max_length : option nat) (v : option Json)
  : option (option string) :=
  match v with
  | None | Some JNull => Some None
  | Some (JString s) => validate_optional_str max_length (Some s)
  | Some _ => None
  end.

(** [UserCreate.model_validate(body)]; keys that are not fields are
    ignored. *)
Definition model_validate (body : gmap string Json) : option t :=
  username ← required_str (Some 26%nat) (body !! "username");
  email ← required_str (Some 100%nat) (body !! "email");
  phone ← optional_str (Some 20%nat) (body !! "phone");
  profile_picture ← optional_str None (body !! "profile_picture");
  Some (mk username email phone profile_picture).
End UserCreate.

End Schema.

(** ** FastAPI: responses *)

Inductive Response (B : Type) : Type :=
| Response200 (body : B)
| ErrorResponse (status_code : Z) (detail : Message).
Arguments Response200 {B} body.
Arguments ErrorResponse {B} status_code detail.

(** A returned value is a 200; an [HTTPException] becomes the response
    with its status code; any other exception is a 500. *)
Definition respond {B} (r : Result B) : Response B :=
  match r with
  | Ok b => Response200 b
  | Raise (HTTPException status_code detail) => ErrorResponse status_code detail
  | Raise _ => ErrorResponse 500 (Text "Internal Server Error")
  end.

(** [response_model=List[LeadRead]]: every returned object is validated;
    one failure fails the response. *)
Fixpoint serialize_response (leads : list Models.Lead)
  : Result (list Schema.LeadRead) :=
  match leads with
  | [] => Ok []
  | lead :: rest =>
      match Schema.model_validate lead with
      | Some r => rs ← serialize_response rest; Ok (r :: rs)
      | None => Raise ResponseValidationError
      end
  end.

(** ** [dbconf.py]: the startup checks *)

Module Dbconf.

(** What the process finds when it starts: the environment variable, and
    the outcome of the library calls made by each check. *)
Record World : Type := mkWorld {
  (** [os.getenv("RAILWAY_ENVIRONMENT_NAME")] *)
  RAILWAY_ENVIRONMENT_NAME : option string;
  (** [engine.connect()] then [SELECT 1]: [Some e] when it raises [e] *)
  select_1 : option Exn;
  (** the Alembic configuration, a connection, then the current revision
      of the database and the head revision of the scripts *)
  revisions : Result (option string * option string);
  (** a connection, then [compare_metadata(context, Base.metadata)] *)
  metadata_diff : Result (list string) }.

Inductive Check : Type :=
| Connection
| MigrationStatus
| SchemaDrift.

(** What the process has done so far, oldest first: [Ran c] when the
    function of check [c] is entered, [Served port] when [uvicorn.run] is
    reached. *)
Inductive Event : Type :=
| Ran (c : Check)
| Served (port : Z).

Definition emit (e : Event) : M (list Event) unit :=
  modify (λ t, t ++ [e]).

(** [test_connection]: only [SQLAlchemyError] is caught. *)
Definition test_connection (w : World) : M (list Event) bool :=
  _ ← emit (Ran Connection);
  match select_1 w with
  | None => mret true
  | Some e => if is_SQLAlchemyError e then mret false else raise e
  end.

Definition rev_ne (a b : option string) : bool :=
  if decide (a = b) then false else true.

(** [check_migration_status]: every exception is caught. *)
Definition check_migration_status (w : World) : M (list Event) bool :=
  _ ← emit (Ran MigrationStatus);
  try_except
    ('(current_rev, head_rev) ← lift (revisions w);
     if rev_ne current_rev head_rev then mret false else mret true)
    (λ e, mret false).

(** [check_schema_drift]: every exception is caught. *)
Definition check_schema_drift (w : World) : M (list Event) bool :=
  _ ← emit (Ran SchemaDrift);
  try_except
    (diff ← lift (metadata_diff w);
     match diff with
     | _ :: _ => mret false
     | [] => mret true
     end)
    (λ e, mret false).

Definition comprehensive_db_check (w : World) : M (list Event) bool :=
  if truthy (RAILWAY_ENVIRONMENT_NAME w) then mret true
  else
    connected ← test_connection w;
    if negb connected then mret false
    else
      migrated ← check_migration_status w;
      if negb migrated then mret false
      else
        matches ← check_schema_drift w;
        if negb matches then mret false
        else mret true.

End Dbconf.

(** ** [main.py] *)

Module UploadFile.
Record t : Type := mk {
  filename : option string;
  content_type : option string;
  read : list Byte.byte }.
End UploadFile.

Module Main.

(** [file.content_type == "..."] *)
Definition is_type (content_type : option string) (s : string) : bool :=
  match content_type with
  | Some c => String.eqb c s
  | None => false
  end.

(** *** [get_leads] *)

Definition get_leads (id : option Z)
    (name source interest_level status salesperson : option string)
  : M Request.t (list Models.Lead) :=
  let query := Orm.query in
  let query :=
    match id with
    | Some id => Orm.filter query (Orm.eq_int Models.id id)
    | None =>
        let query :=
          match name with
          | Some name => Orm.filter query (Orm.eq_str Models.lead_name name)
          | None => query
          end in
        let query :=
          match source with
          | Some source => Orm.filter query (Orm.eq_str Models.source source)
          | None => query
          end in
        let query :=
          match interest_level with
          | Some interest_level =>
              Orm.filter query (Orm.eq_str Models.interest_level interest_level)
          | None => query
          end in
        let query :=
          match status with
          | Some status => Orm.filter query (Orm.eq_str Models.status status)
          | None => query
          end in
        let query :=
          match salesperson with
          | Some salesperson =>
              Orm.filter query (Orm.eq_str Models.salesperson salesperson)
          | None => query
          end in
        query
    end in
  Request.db (Orm.all query).

(** [GET /leads/]: the handler in a request-scoped session, then the
    response model. *)
Definition GET_leads (id : option Z)
    (name source interest_level status salesperson : option string)
    (db : Table) : Response (list Schema.LeadRead) :=
  respond
    (leads ← (Request.get_database_session
                (get_leads id name source interest_level status salesperson)
                db).1;
     serialize_response leads).

(** *** [process_csv_data] *)

(** [row[key]] *)
Definition getitem (row : Row) (key : string) : Result (option string) :=
  match row !! key with
  | Some v => Ok v
  | None => Raise (KeyError key)
  end.

(** [row.get(key)] *)
Definition get (row : Row) (key : string) : option string :=
  match row !! key with
  | Some v => v
  | None => None
  end.

(** The [Lead(...)] expression of the loop body. *)
Definition Lead_of_row (row : Row) : Result Models.Lead :=
  v ← getitem row "Lead ID";
  id ← Py.int v;
  Ok (Models.mkLead id
        (Models.mkCols (get row "Lead Name")
                       (get row "Contact Information")
                       (get row "Source")
                       (get row "Interest Level")
                       (get row "Status")
                       (get row "Assigned Salesperson"))).

(** The [for row in csv_reader] loop, with the counter so far. *)
Fixpoint for_rows `{Externals} (csv_reader : RowStream) (processed : nat)
  : M Request.t nat :=
  match csv_reader with
  | Stop => mret processed
  | Abort e => raise e
  | Yield row rest =>
      processed ←
        try_except
          (lead ← lift (Lead_of_row row);
           _ ← Request.db (Orm.merge lead);
           mret (S processed))
          (λ e,
             _ ← Request.print (FString "Skipping invalid row: " e);
             mret processed);
      for_rows rest processed
  end.

Definition process_csv_data `{Externals} (contents : list Byte.byte)
  : M Request.t nat :=
  text ← lift (decode contents);
  let csv_reader := DictReader text in
  processed ← for_rows csv_reader 0%nat;
  _ ← Request.db Orm.commit;
  mret processed.

(** *** [upload_file] *)

(** The dictionary returned by [upload_file]. *)
Record Uploaded : Type := mkUploaded {
  filename : option string;
  processed_count : nat;
  status : string }.

Definition upload_file `{Externals} (file : UploadFile.t)
  : M Request.t Uploaded :=
  let contents := UploadFile.read file in
  try_except
    (processed_count ←
       (if is_type (UploadFile.content_type file) "application/json" then
          _ ← Request.print (Text "Unsupported file type");
          mret 0%nat
        else if is_type (UploadFile.content_type file) "text/csv" then
          process_csv_data contents
        else
          raise (HTTPException 400 (Text "Unsupported file type")));
     mret {| filename := UploadFile.filename file;
             processed_count := processed_count;
             status := "success" |})
    (λ e, raise (HTTPException 500 (FString "Failed to process file: " e))).

(** [POST /files/]: the response and the table left behind. *)
Definition POST_files `{Externals} (file : UploadFile.t) (db : Table)
  : Response Uploaded * Table :=
  let '(r, h) := Request.get_database_session (upload_file file) db in
  (respond r, Orm.table (Request.session h)).

(** *** Startup

    The two lines [startup_event] prints are left out, like the
    diagnostics of the checks. *)

Definition startup_event (w : Dbconf.World) : M (list Dbconf.Event) unit :=
  ok ← Dbconf.comprehensive_db_check w;
  if negb ok then
    raise (RuntimeError "Database issues detected - may have unexpected behaviors")
  else mret tt.

(** [int(os.getenv("PORT", 8888))] as evaluated in [main.py]: the module
    never imports [os], so looking the name up raises before anything is
    read or converted. *)
Definition port : Result Z :=
  Raise (NameError "os").

(** The [if __name__ == "__main__":] block; [uvicorn.run] is the event
    [Served]. *)
Definition main (w : Dbconf.World) : M (list Dbconf.Event) unit :=
  _ ← startup_event w;
  port ← lift port;
  Dbconf.emit (Dbconf.Served port).

(** *** [db_status] *)

(** The dictionary returned by [db_status]. *)
Module Status.
Record t : Type := mk {
  status : string;
  message : string }.
End Status.

Definition db_status (w : Dbconf.World) : M (list Dbconf.Event) Status.t :=
  connected ← Dbconf.test_connection w;
  if connected : bool then
    mret (Status.mk "connected" "Database connection successful")
  else
    raise (HTTPException 500 (Text "Database connection failed")).

(** [GET /db-status] *)
Definition GET_db_status (w : Dbconf.World) : Response Status.t :=
  respond (db_status w []).1.

End Main.

(** ** The vocabulary of the properties *)

Module Spec.

(** The integer a row offers as its ["Lead ID"], if it has one: the
    column is there, the field is there, and the field reads as an
    integer. *)
Definition lead_id (row : Row) : option Z :=
  match row !! "Lead ID" with
  | Some (Some s) => parse_int s
  | _ => None
  end.

(** The exception the loop body raises on a row, if any: from building
    the [Lead] or from [merge]. *)
Definition raised `{Externals} (row : Row) : option Exn :=
  match Main.Lead_of_row row with
  | Ok lead => merge_fault lead
  | Raise e => Some e
  end.

(** The row goes through the loop body without raising. *)
Definition row_ok `{Externals} (row : Row) : bool :=
  match raised row with
  | None => true
  | Some _ => false
  end.

Definition count_ok `{Externals} (rows : list Row) : nat :=
  length (List.filter row_ok rows).

(** The lines the loop prints for a batch: one for each row that raised,
    in the order of the rows. *)
Fixpoint skipped `{Externals} (rows : list Row) : list Message :=
  match rows with
  | [] => []
  | row :: rest =>
      match raised row with
      | Some e => FString "Skipping invalid row: " e :: skipped rest
      | None => skipped rest
      end
  end.

(** The rows a reader yields before it stops, and the exception it stops
    with, if any. *)
Fixpoint rows_of (st : RowStream) : list Row :=
  match st with
  | Stop | Abort _ => []
  | Yield row rest => row :: rows_of rest
  end.

Fixpoint failure_of (st : RowStream) : option Exn :=
  match st with
  | Stop => None
  | Abort e => Some e
  | Yield _ rest => failure_of rest
  end.

(** Insert-or-replace by primary key. *)
Definition upsert (lead : Models.Lead) (t : Table) : Table :=
  <[Models.id lead := Models.cols lead]> t.

Definition upsert_row `{Externals} (row : Row) (t : Table) : Table :=
  match Main.Lead_of_row row with
  | Ok lead =>
      match merge_fault lead with
      | None => upsert lead t
      | Some _ => t
      end
  | Raise _ => t
  end.

(** The rows of a batch upserted one after the other, first row first. *)
Definition upsert_rows `{Externals} (rows : list Row) (t : Table) : Table :=
  foldl (λ t row, upsert_row row t) t rows.

(** The [merge] calls a batch makes: one per row whose [Lead] is built. *)
Fixpoint merge_calls (rows : list Row) : list Orm.Call :=
  match rows with
  | [] => []
  | row :: rest =>
      match Main.Lead_of_row row with
      | Ok lead => Orm.CallMerge lead :: merge_calls rest
      | Raise _ => merge_calls rest
      end
  end.

(** The state after the loop has gone through [rows], whatever the
    counter. *)
Definition after_rows `{Externals} (rows : list Row) (h : Request.t) : Request.t :=
  let s := Request.session h in
  Request.mk
    (Orm.mkSession (Orm.table s)
                   (upsert_rows rows (Orm.pending s))
                   (Orm.calls s ++ merge_calls rows))
    (Request.stdout h ++ skipped rows).


(** A lead satisfies an optional filter when the filter is absent or the
    column holds exactly the requested text. *)
Definition wanted (param : option string) (col : option string) : bool :=
  match param with
  | None => true
  | Some v => match col with Some s => String.eqb s v | None => false end
  end.

Definition matches (name source interest_level status salesperson : option string)
    (lead : Models.Lead) : bool :=
  let c := Models.cols lead in
  wanted name (Models.lead_name c)
  && wanted source (Models.source c)
  && wanted interest_level (Models.interest_level c)
  && wanted status (Models.status c)
  && wanted salesperson (Models.salesperson c).

(** The CSV headers of the six text columns. *)
Definition text_headers : list string :=
  ["Lead Name"; "Contact Information"; "Source"; "Interest Level"; "Status";
   "Assigned Salesperson"].

Definition is_null (col : option string) : bool :=
  match col with None => true | Some _ => false end.

(** Some text column of the lead is NULL. *)
Definition has_null (c : Models.LeadCols) : bool :=
  is_null (Models.lead_name c) || is_null (Models.email c)
  || is_null (Models.source c) || is_null (Models.interest_level c)
  || is_null (Models.status c) || is_null (Models.salesperson c).

(** Whether a startup check passes in a world. *)
Definition passes (w : Dbconf.World) (c : Dbconf.Check) : bool :=
  match c with
  | Dbconf.Connection =>
      match Dbconf.select_1 w with None => true | Some _ => false end
  | Dbconf.MigrationStatus =>
      match Dbconf.revisions w with
      | Ok (current, head) => bool_decide (current = head)
      | Raise _ => false
      end
  | Dbconf.SchemaDrift =>
      match Dbconf.metadata_diff w with
      | Ok [] => true
      | _ => false
      end
  end.

(** A sequential gate: the checks are tried in the order given, and the
    first one that does not pass ends the run with a failure.  The result
    is the checks tried and the verdict. *)
Fixpoint gate (w : Dbconf.World) (checks : list Dbconf.Check)
  : list Dbconf.Check * bool :=
  match checks with
  | [] => ([], true)
  | c :: rest =>
      if passes w c then
        let '(tried, verdict) := gate w rest in (c :: tried, verdict)
      else ([c], false)
  end.

Definition startup_checks : list Dbconf.Check :=
  [Dbconf.Connection; Dbconf.MigrationStatus; Dbconf.SchemaDrift].

(** The seven CSV headers the loop body reads. *)
Definition lead_headers : list string := "Lead ID" :: text_headers.

(** The record [r] shows the lead as it is stored: all six texts are
    there, and name and contact are at most 100 characters long. *)
Definition shown_as (lead : Models.Lead) (r : Schema.LeadRead) : Prop :=
  Schema.id r = Models.id lead
  ∧ Models.cols lead
    = Models.mkCols (Some (Schema.lead_name r)) (Some (Schema.email r))
                    (Some (Schema.source r)) (Some (Schema.interest_level r))
                    (Some (Schema.status r)) (Some (Schema.salesperson r))
  ∧ (String.length (Schema.lead_name r) ≤ 100)%nat
  ∧ (String.length (Schema.email r) ≤ 100)%nat.

End Spec.

(** ** Sample data *)

Module Sample.

Definition row (fields : list (string * option string)) : Row :=
  list_to_map fields.

Definition ann : Row :=
  row [("Lead ID", Some "1"); ("Lead Name", Some "Ann");
       ("Contact Information", Some "ann@example.org"); ("Source", Some "web");
       ("Interest Level", Some "high"); ("Status", Some "new");
       ("Assigned Salesperson", Some "Kim")].

(** A later line for the same id, with other fields. *)
Definition ann_again : Row :=
  row [("Lead ID", Some " 1 "); ("Lead Name", Some "Ann B");
       ("Contact Information", Some "ann@example.org"); ("Source", Some "fair");
       ("Interest Level", Some "low"); ("Status", Some "won");
       ("Assigned Salesperson", Some "Lee")].

(** The id does not read as an integer. *)
Definition bad_id : Row :=
  row [("Lead ID", Some "seven"); ("Lead Name", Some "Bob")].

(** The line stopped after the id: the other fields are absent. *)
Definition short : Row :=
  row [("Lead ID", Some "7"); ("Lead Name", None)].

(** A file without the id column. *)
Definition no_id : Row :=
  row [("Lead Name", Some "Cy")].

Definition batch : list Row := [ann; bad_id; short; no_id; ann_again].

(** A table that already holds lead 1 and another lead. *)
Definition stored : Table :=
  <[1 := Models.mkCols (Some "Old") None None None None None]>
    (<[5 := Models.mkCols (Some "Eve") (Some "eve@example.org") (Some "web")
                          (Some "low") (Some "new") (Some "Kim")]> ∅).

(** A reader over fixed rows, a database that accepts everything. *)
Definition reads (st : RowStream) : Externals :=
  {| decode := λ _, Ok "";
     DictReader := λ _, st;
     merge_fault := λ _, None;
     commit_fault := λ _ _, None |}.

Definition reader : Externals := reads (yield_all batch).

Definition csv : UploadFile.t :=
  UploadFile.mk (Some "leads.csv") (Some "text/csv") [].

Definition json : UploadFile.t :=
  UploadFile.mk (Some "leads.json") (Some "application/json") [].

Definition png : UploadFile.t :=
  UploadFile.mk (Some "logo.png") (Some "image/png") [].

Definition healthy : Dbconf.World :=
  Dbconf.mkWorld None None (Ok (Some "a1b2", Some "a1b2")) (Ok []).

Definition behind : Dbconf.World :=
  Dbconf.mkWorld None None (Ok (Some "a1b2", Some "c3d4")) (Ok []).

Definition unreachable_hosted : Dbconf.World :=
  Dbconf.mkWorld (Some "production") (Some SQLAlchemyError)
                 (Raise SQLAlchemyError) (Raise SQLAlchemyError).

(** Three uploads told apart by their size (one byte, two bytes,
    anything else), each with its own rows; the database accepts
    everything. *)
Definition by_size (one two other : list Row) : Externals :=
  {| decode := λ contents,
       Ok match contents with
          | [_] => "one"
          | [_; _] => "two"
          | _ => "other"
          end;
     DictReader := λ text,
       if String.eqb text "one" then yield_all one
       else if String.eqb text "two" then yield_all two
       else yield_all other;
     merge_fault := λ _, None;
     commit_fault := λ _ _, None |}.

Definition csv_of (contents : list Byte.byte) : UploadFile.t :=
  UploadFile.mk (Some "leads.csv") (Some "text/csv") contents.

Definition one_byte : list Byte.byte := [Byte.x00].
Definition two_bytes : list Byte.byte := [Byte.x00; Byte.x00].

(** A row without the id column and with a column nobody reads. *)
Definition no_header : Row :=
  row [("Lead Name", Some "Dee"); ("Notes", Some "call back")].

Definition eve : Models.Lead :=
  Models.mkLead 5 (Models.mkCols (Some "Eve") (Some "eve@example.org")
                                 (Some "web") (Some "low") (Some "new")
                                 (Some "Kim")).

Definition user : Models.User.t :=
  Models.User.mk 3 "kim" "kim@example.org" None None true 1700000000 None.

Definition post_without_content : Models.Post.t :=
  Models.Post.mk 9 3 "Draft" None 1700000000 1700000000.

Definition new_user : gmap string Json :=
  <["username" := JString "lee"]>
    (<["email" := JString "lee@example.org"]>
       (<["phone" := JNull]> (<["role" := JString "admin"]> ∅))).

Definition unreachable : Dbconf.World :=
  Dbconf.mkWorld None (Some SQLAlchemyError)
                 (Ok (Some "a1b2", Some "a1b2")) (Ok []).

End Sample.


(** * Properties *)

(** Unfolds the monad so that a run becomes a [match] on its steps. *)
Ltac run :=
  unfold mbind, mret, M_bind, M_ret, Result_bind, Result_ret,
    bind, ret, raise, try_except, lift, modify in *.

(** ** Ingestion: what one run of the loop and of the handler does *)

Section Ingestion.
Context `{E : Externals}.

Lemma Lead_of_row_id (row : Row) :
  match Main.Lead_of_row row with
  | Ok lead => Spec.lead_id row = Some (Models.id lead)
  | Raise _ => Spec.lead_id row = None
  end.
Proof.
  unfold Main.Lead_of_row, Main.getitem, Spec.lead_id, Py.int. run.
  destruct (row !! "Lead ID") as [[s|]|]; simpl; try done.
  by destruct (parse_int s).
Qed.

(** A row without a readable id makes the loop body raise, at the
    construction of the [Lead]. *)
Lemma row_without_id_raises (row : Row) :
  Spec.lead_id row = None →
  ∃ e, Main.Lead_of_row row = Raise e ∧ Spec.raised row = Some e.
Proof.
  intros Hid. unfold Spec.raised.
  pose proof (Lead_of_row_id row) as H.
  destruct (Main.Lead_of_row row) as [lead|e]; [congruence | eauto].
Qed.

Lemma row_without_id_not_ok (row : Row) :
  Spec.lead_id row = None → Spec.row_ok row = false.
Proof.
  intros (e & _ & He)%row_without_id_raises. unfold Spec.row_ok. by rewrite He.
Qed.

Lemma row_without_id_not_upserted (row : Row) (t : Table) :
  Spec.lead_id row = None → Spec.upsert_row row t = t.
Proof.
  intros (e & He & _)%row_without_id_raises. unfold Spec.upsert_row.
  by rewrite He.
Qed.

Lemma count_ok_app (xs ys : list Row) :
  Spec.count_ok (xs ++ ys) = (Spec.count_ok xs + Spec.count_ok ys)%nat.
Proof. unfold Spec.count_ok. by rewrite List.filter_app, length_app. Qed.

Lemma count_ok_cons (row : Row) (rows : list Row) :
  Spec.count_ok (row :: rows)
  = ((if Spec.row_ok row then 1 else 0) + Spec.count_ok rows)%nat.
Proof. unfold Spec.count_ok. simpl. by destruct (Spec.row_ok row). Qed.

Lemma upsert_rows_app (xs ys : list Row) (t : Table) :
  Spec.upsert_rows (xs ++ ys) t = Spec.upsert_rows ys (Spec.upsert_rows xs t).
Proof. unfold Spec.upsert_rows. by rewrite foldl_app. Qed.

Lemma skipped_app (xs ys : list Row) :
  Spec.skipped (xs ++ ys) = Spec.skipped xs ++ Spec.skipped ys.
Proof.
  induction xs as [|x xs IH]; [done|]. cbn.
  destruct (Spec.raised x); by rewrite IH.
Qed.

(** One pass through the body of the loop, with its [except] clause. *)
Lemma loop_body_run (row : Row) (n : nat) (h : Request.t) :
  try_except
    (lead ← lift (Main.Lead_of_row row);
     _ ← Request.db (Orm.merge lead);
     mret (S n))
    (λ e, _ ← Request.print (FString "Skipping invalid row: " e); mret n) h
  = (Ok (if Spec.row_ok row then S n else n), Spec.after_rows [row] h).
Proof.
  destruct h as [[t p c] out].
  unfold Spec.after_rows, Spec.row_ok, Spec.upsert_rows, Spec.upsert_row,
    Spec.upsert, Request.db, Request.print, Orm.merge, Orm.called.
  cbn [Spec.skipped Spec.merge_calls foldl]. unfold Spec.raised. run. cbn.
  destruct (Main.Lead_of_row row) as [lead|e]; cbn.
  - destruct (merge_fault lead); cbn; by rewrite ?app_nil_r.
  - by rewrite app_nil_r.
Qed.

Lemma after_rows_cons (row : Row) (rows : list Row) (h : Request.t) :
  Spec.after_rows rows (Spec.after_rows [row] h) = Spec.after_rows (row :: rows) h.
Proof.
  destruct h as [[t p c] out]. unfold Spec.after_rows. cbn.
  f_equal; [f_equal|].
  - destruct (Main.Lead_of_row row); by rewrite <-app_assoc.
  - destruct (Spec.raised row); by rewrite <-app_assoc.
Qed.

(** The whole loop: the counter and the state after the reader is
    exhausted or has raised. *)
Lemma for_rows_run (st : RowStream) (n : nat) (h : Request.t) :
  Main.for_rows st n h
  = (match Spec.failure_of st with
     | None => Ok (n + Spec.count_ok (Spec.rows_of st))%nat
     | Some e => Raise e
     end,
     Spec.after_rows (Spec.rows_of st) h).
Proof.
  revert n h. induction st as [|row rest IH|e]; intros n h.
  - destruct h as [[t p c] out]. unfold Spec.after_rows. cbn. run.
    by rewrite Nat.add_0_r, !app_nil_r.
  - cbn [Main.for_rows]. unfold mbind at 1, M_bind at 1, bind at 1.
    rewrite loop_body_run, IH. cbn [Spec.rows_of Spec.failure_of].
    rewrite count_ok_cons, after_rows_cons. f_equal.
    destruct (Spec.failure_of rest); [done|].
    f_equal. destruct (Spec.row_ok row); lia.
  - destruct h as [[t p c] out]. unfold Spec.after_rows. cbn. run.
    by rewrite !app_nil_r.
Qed.

Lemma rows_of_yield_all (rows : list Row) :
  Spec.rows_of (yield_all rows) = rows ∧ Spec.failure_of (yield_all rows) = None.
Proof. induction rows as [|r rows [IH1 IH2]]; simpl; [done|]. by rewrite IH1. Qed.

End Ingestion.

Section Handler.
Context `{E : Externals}.

(** [process_csv_data], case by case: decoding fails; the reader raises
    part-way; the commit is refused; everything goes through. *)
Lemma process_csv_data_run (contents : list Byte.byte) (h : Request.t) :
  Main.process_csv_data contents h
  = match decode contents with
    | Raise e => (Raise e, h)
    | Ok text =>
        let rows := Spec.rows_of (DictReader text) in
        let h' := Spec.after_rows rows h in
        let s' := Request.session h' in
        match Spec.failure_of (DictReader text) with
        | Some e => (Raise e, h')
        | None =>
            match commit_fault (Orm.table s') (Orm.pending s') with
            | Some e =>
                (Raise e,
                 Request.mk (Orm.called Orm.CallCommit s') (Request.stdout h'))
            | None =>
                (Ok (Spec.count_ok rows),
                 Request.mk
                   (Orm.mkSession (Orm.pending s' ∪ Orm.table s') ∅
                                  (Orm.calls s' ++ [Orm.CallCommit]))
                   (Request.stdout h'))
            end
        end
    end.
Proof.
  unfold Main.process_csv_data.
  unfold mbind at 1, M_bind at 1, bind at 1, lift at 1.
  destruct (decode contents) as [text|e]; [|done].
  unfold mbind at 1, M_bind at 1, bind at 1. rewrite for_rows_run.
  destruct (Spec.failure_of (DictReader text)); [done|].
  unfold Request.db, Orm.commit, Orm.called. run. cbn.
  by destruct (commit_fault _ _).
Qed.

Lemma is_type_csv_not_json (content_type : option string) :
  Main.is_type content_type "text/csv" = true →
  Main.is_type content_type "application/json" = false.
Proof.
  destruct content_type as [c|]; simpl; [|done].
  intros ->%String.eqb_eq. done.
Qed.

(** The outcome of [upload_file] in terms of the outcome of the branch
    taken for the content type. *)
Lemma upload_file_run (file : UploadFile.t) (h : Request.t) :
  Main.upload_file file h
  = let branch : M Request.t nat :=
      if Main.is_type (UploadFile.content_type file) "application/json" then
        _ ← Request.print (Text "Unsupported file type"); mret 0%nat
      else if Main.is_type (UploadFile.content_type file) "text/csv" then
        Main.process_csv_data (UploadFile.read file)
      else raise (HTTPException 400 (Text "Unsupported file type")) in
    match branch h with
    | (Ok n, h') =>
        (Ok (Main.mkUploaded (UploadFile.filename file) n "success"), h')
    | (Raise e, h') =>
        (Raise (HTTPException 500 (FString "Failed to process file: " e)), h')
    end.
Proof.
  unfold Main.upload_file. run. cbv zeta.
  by destruct (if Main.is_type _ _ then _ else _) as [[n|e] h'].
Qed.

(** A CSV upload in a fresh session: the outcome, the table and the
    printed lines it leaves. *)
Lemma upload_csv_run (file : UploadFile.t) (db : Table) :
  Main.is_type (UploadFile.content_type file) "text/csv" = true →
  Request.get_database_session (Main.upload_file file) db
  = let failed e :=
      Raise (HTTPException 500 (FString "Failed to process file: " e)) in
    match decode (UploadFile.read file) with
    | Raise e =>
        (failed e, Request.mk (Orm.mkSession db ∅ [Orm.CallClose]) [])
    | Ok text =>
        let rows := Spec.rows_of (DictReader text) in
        let merges := Spec.merge_calls rows in
        match Spec.failure_of (DictReader text) with
        | Some e =>
            (failed e,
             Request.mk (Orm.mkSession db ∅ (merges ++ [Orm.CallClose]))
                        (Spec.skipped rows))
        | None =>
            match commit_fault db (Spec.upsert_rows rows ∅) with
            | Some e =>
                (failed e,
                 Request.mk
                   (Orm.mkSession
                      db ∅ (merges ++ [Orm.CallCommit; Orm.CallClose]))
                   (Spec.skipped rows))
            | None =>
                (Ok (Main.mkUploaded (UploadFile.filename file)
                                     (Spec.count_ok rows) "success"),
                 Request.mk
                   (Orm.mkSession
                      (Spec.upsert_rows rows ∅ ∪ db) ∅
                      (merges ++ [Orm.CallCommit; Orm.CallClose]))
                   (Spec.skipped rows))
            end
        end
    end.
Proof.
  intros Hcsv. unfold Request.get_database_session.
  rewrite upload_file_run. cbv zeta.
  rewrite (is_type_csv_not_json _ Hcsv), Hcsv, process_csv_data_run.
  unfold Orm.SessionLocal, Spec.after_rows, Orm.close, Orm.called.
  cbn [Orm.table Orm.pending Orm.calls Request.session Request.stdout app].
  destruct (decode _) as [text|e]; [|done].
  destruct (Spec.failure_of _); [done|].
  destruct (commit_fault _ _);
    cbn [Orm.table Orm.pending Orm.calls Request.session Request.stdout];
    by rewrite <-app_assoc.
Qed.

(** [POST /files/] for a CSV upload. *)
Lemma POST_files_csv (file : UploadFile.t) (db : Table) :
  Main.is_type (UploadFile.content_type file) "text/csv" = true →
  Main.POST_files file db
  = let failed e :=
      (ErrorResponse 500 (FString "Failed to process file: " e), db) in
    match decode (UploadFile.read file) with
    | Raise e => failed e
    | Ok text =>
        let rows := Spec.rows_of (DictReader text) in
        match Spec.failure_of (DictReader text) with
        | Some e => failed e
        | None =>
            match commit_fault db (Spec.upsert_rows rows ∅) with
            | Some e => failed e
            | None =>
                (Response200 (Main.mkUploaded (UploadFile.filename file)
                                              (Spec.count_ok rows) "success"),
                 Spec.upsert_rows rows ∅ ∪ db)
            end
        end
    end.
Proof.
  intros Hcsv. unfold Main.POST_files. rewrite (upload_csv_run _ _ Hcsv).
  cbv zeta.
  destruct (decode _) as [text|e]; [|done].
  destruct (Spec.failure_of _); [done|].
  by destruct (commit_fault _ _).
Qed.

(** [POST /files/] for any other upload leaves the table as it is. *)
Lemma POST_files_not_csv (file : UploadFile.t) (db : Table) :
  Main.is_type (UploadFile.content_type file) "text/csv" = false →
  (Main.POST_files file db).2 = db.
Proof.
  intros Hcsv. unfold Main.POST_files, Request.get_database_session.
  rewrite upload_file_run. cbv zeta. rewrite Hcsv.
  by destruct (Main.is_type _ "application/json").
Qed.

End Handler.

Section Upserts.
Context `{E : Externals}.

Lemma upsert_row_lookup_other (row : Row) (t : Table) (i : Z) :
  Spec.lead_id row ≠ Some i → Spec.upsert_row row t !! i = t !! i.
Proof.
  intros Hne. unfold Spec.upsert_row, Spec.upsert.
  pose proof (Lead_of_row_id row) as Hid.
  destruct (Main.Lead_of_row row) as [lead|]; [|done].
  destruct (merge_fault lead); [done|].
  apply lookup_insert_ne. congruence.
Qed.

Lemma upsert_rows_lookup_other (rows : list Row) (t : Table) (i : Z) :
  Forall (λ r, Spec.lead_id r ≠ Some i) rows →
  Spec.upsert_rows rows t !! i = t !! i.
Proof.
  intros Hall. revert t.
  induction Hall as [|row rows Hrow _ IH]; intros t; [done|].
  change (Spec.upsert_rows rows (Spec.upsert_row row t) !! i = t !! i).
  by rewrite IH, upsert_row_lookup_other.
Qed.

(** The last row of a batch that carries a given id decides the stored
    columns of that id. *)
Lemma upsert_rows_last_wins (before after : list Row) (row : Row)
    (lead : Models.Lead) (t : Table) :
  Main.Lead_of_row row = Ok lead →
  merge_fault lead = None →
  Forall (λ r, Spec.lead_id r ≠ Some (Models.id lead)) after →
  Spec.upsert_rows (before ++ row :: after) t !! Models.id lead
  = Some (Models.cols lead).
Proof.
  intros Hlead Hmerge Hafter.
  rewrite upsert_rows_app.
  change (Spec.upsert_rows (row :: after) ?u)
    with (Spec.upsert_rows after (Spec.upsert_row row u)).
  rewrite upsert_rows_lookup_other by done.
  unfold Spec.upsert_row, Spec.upsert. rewrite Hlead, Hmerge.
  apply lookup_insert_eq.
Qed.


(** Uploading the same file a second time changes nothing more. *)
Lemma POST_files_idempotent (file : UploadFile.t) (db : Table) :
  (Main.POST_files file (Main.POST_files file db).2).2
  = (Main.POST_files file db).2.
Proof.
  destruct (Main.is_type (UploadFile.content_type file) "text/csv") eqn:Hcsv.
  - rewrite !(POST_files_csv _ _ Hcsv). cbv zeta.
    destruct (decode _) as [text|e]; [|done].
    destruct (Spec.failure_of _); [done|].
    set (p := Spec.upsert_rows _ ∅).
    destruct (commit_fault db p) eqn:Hfirst; cbn [snd].
    + by rewrite Hfirst.
    + destruct (commit_fault (p ∪ db) p); cbn [snd]; [done|].
      by rewrite (assoc_L (∪)), (idemp_L (∪)).
  - by rewrite !(POST_files_not_csv _ _ Hcsv).
Qed.

End Upserts.

(** ** The upload endpoint *)

(** C1 (the code departs from the claim).  An upload whose content type is
    neither [text/csv] nor [application/json], here [image/png], is not
    answered with status 400: the [HTTPException] with status 400 is raised
    inside the [try] block, the [except Exception] clause catches it, and
    the response has status 500 with the caught exception in its detail.
    The table is left as it was. *)
Theorem unsupported_type_is_answered_500 `{E : Externals} (db : Table) :
  Main.POST_files Sample.png db
  = (ErrorResponse 500
       (FString "Failed to process file: "
                (HTTPException 400 (Text "Unsupported file type"))),
     db).
Proof. reflexivity. Qed.

(** The same for every content type other than the two that are tested
    for, and for an upload without a content type. *)
Lemma other_types_are_answered_500 `{E : Externals}
    (file : UploadFile.t) (db : Table) :
  Main.is_type (UploadFile.content_type file) "application/json" = false →
  Main.is_type (UploadFile.content_type file) "text/csv" = false →
  Main.POST_files file db
  = (ErrorResponse 500
       (FString "Failed to process file: "
                (HTTPException 400 (Text "Unsupported file type"))),
     db).
Proof.
  intros Hjson Hcsv. unfold Main.POST_files, Request.get_database_session.
  rewrite upload_file_run. cbv zeta. by rewrite Hjson, Hcsv.
Qed.

(** C4.  An upload with content type [application/json] is answered with
    status 200 and [processed_count = 0], whatever the file holds: the
    handler prints that the type is unsupported, calls nothing on the
    session, and the table is left as it was.  So no response to such an
    upload reports a nonzero count. *)
Theorem json_upload_processes_nothing `{E : Externals}
    (filename : option string) (contents : list Byte.byte) (db : Table) :
  Main.POST_files (UploadFile.mk filename (Some "application/json") contents) db
  = (Response200 (Main.mkUploaded filename 0 "success"), db)
  ∧ Request.get_database_session
      (Main.upload_file
         (UploadFile.mk filename (Some "application/json") contents)) db
    = (Ok (Main.mkUploaded filename 0 "success"),
       Request.mk (Orm.mkSession db ∅ [Orm.CallClose])
                  [Text "Unsupported file type"]).
Proof. split; reflexivity. Qed.

(** C2.  For a CSV upload whose bytes decode and whose reader yields the
    rows [rows] to the end: a 200 response reports as [processed_count] the
    number of rows for which building the [Lead] and merging it did not
    raise, and that response is given whenever the commit is accepted.
    The lines printed are the messages of the rows that raised.  A row
    whose ["Lead ID"] is missing or does not read as an integer raises when
    its [Lead] is built: its message is printed, it is not counted, and
    taking it out of the file changes neither the count of the other rows
    nor what is stored. *)
Theorem processed_count_is_number_of_good_rows `{E : Externals}
    (file : UploadFile.t) (db : Table) (text : string) (rows : list Row) :
  Main.is_type (UploadFile.content_type file) "text/csv" = true →
  decode (UploadFile.read file) = Ok text →
  DictReader text = yield_all rows →
  (commit_fault db (Spec.upsert_rows rows ∅) = None →
   (Main.POST_files file db).1
   = Response200 (Main.mkUploaded (UploadFile.filename file)
                                  (Spec.count_ok rows) "success"))
  ∧ (∀ body, (Main.POST_files file db).1 = Response200 body →
             Main.processed_count body = Spec.count_ok rows)
  ∧ Request.stdout
      (Request.get_database_session (Main.upload_file file) db).2
    = Spec.skipped rows
  ∧ (∀ before row after,
       rows = before ++ row :: after →
       Spec.lead_id row = None →
       Spec.row_ok row = false
       ∧ Spec.count_ok rows = (Spec.count_ok before + Spec.count_ok after)%nat
       ∧ Spec.count_ok rows = Spec.count_ok (before ++ after)
       ∧ Spec.upsert_rows rows ∅ = Spec.upsert_rows (before ++ after) ∅
       ∧ ∃ e, Main.Lead_of_row row = Raise e
              ∧ Spec.skipped rows
                = Spec.skipped before
                  ++ FString "Skipping invalid row: " e :: Spec.skipped after).
Proof.
  intros Hcsv Hdec Hread.
  destruct (rows_of_yield_all rows) as [Hrows Hend].
  rewrite (POST_files_csv _ _ Hcsv), (upload_csv_run _ _ Hcsv), Hdec, Hread.
  cbv zeta. rewrite Hend, Hrows.
  split; [|split; [|split]].
  - by intros ->.
  - intros body. destruct (commit_fault _ _); cbn [fst]; [done|].
    by intros [= <-].
  - by destruct (commit_fault _ _).
  - intros before row after -> Hid.
    pose proof (row_without_id_not_ok row Hid) as Hno.
    destruct (row_without_id_raises row Hid) as (e & Hlead & Hraised).
    repeat split; [done | | | |].
    + rewrite count_ok_app, count_ok_cons, Hno. lia.
    + rewrite !count_ok_app, count_ok_cons, Hno. lia.
    + rewrite !upsert_rows_app.
      change (Spec.upsert_rows (row :: after) ?u)
        with (Spec.upsert_rows after (Spec.upsert_row row u)).
      by rewrite row_without_id_not_upserted.
    + exists e. split; [done|]. rewrite skipped_app. cbn [Spec.skipped].
      by rewrite Hraised.
Qed.

Lemma processed_count_witness :
  (@Main.POST_files Sample.reader Sample.csv ∅).1
  = Response200 (Main.mkUploaded (Some "leads.csv") 3 "success").
Proof.
  pose proof (@processed_count_is_number_of_good_rows
                Sample.reader Sample.csv ∅ "" Sample.batch) as H.
  destruct H as [H _]; [reflexivity | reflexivity | reflexivity |].
  apply H. reflexivity.
Defined.

(** C5.  Uploading the same file twice in a row leaves the table exactly
    as uploading it once does.  When the reader yields [rows] and the commit
    is accepted, the table after the upload is the batch upserted over the
    table before it: for every row that is built and merged, the row stored
    under its id holds the columns of the last such row in the file,
    whether or not that id was stored before. *)
Theorem reupload_leaves_table_unchanged `{E : Externals}
    (file : UploadFile.t) (db : Table) (text : string) (rows : list Row) :
  Main.is_type (UploadFile.content_type file) "text/csv" = true →
  decode (UploadFile.read file) = Ok text →
  DictReader text = yield_all rows →
  (Main.POST_files file (Main.POST_files file db).2).2
  = (Main.POST_files file db).2
  ∧ (commit_fault db (Spec.upsert_rows rows ∅) = None →
     (Main.POST_files file db).2 = Spec.upsert_rows rows ∅ ∪ db
     ∧ ∀ before row after lead,
         rows = before ++ row :: after →
         Main.Lead_of_row row = Ok lead →
         merge_fault lead = None →
         Forall (λ r, Spec.lead_id r ≠ Some (Models.id lead)) after →
         (Main.POST_files file db).2 !! Models.id lead
         = Some (Models.cols lead)).
Proof.
  intros Hcsv Hdec Hread. split; [apply POST_files_idempotent|].
  intros Hcommit.
  destruct (rows_of_yield_all rows) as [Hrows Hend].
  rewrite (POST_files_csv _ _ Hcsv), Hdec, Hread. cbv zeta.
  rewrite Hend, Hrows, Hcommit. cbn [snd]. split; [done|].
  intros before row after lead -> Hlead Hmerge Hafter.
  apply lookup_union_Some_l.
  by apply upsert_rows_last_wins.
Qed.

Lemma reupload_witness :
  (@Main.POST_files Sample.reader Sample.csv
     (@Main.POST_files Sample.reader Sample.csv Sample.stored).2).2
  = (@Main.POST_files Sample.reader Sample.csv Sample.stored).2
  ∧ (@Main.POST_files Sample.reader Sample.csv Sample.stored).2 !! 1
    = Some (Models.mkCols (Some "Ann B") (Some "ann@example.org")
                        (Some "fair") (Some "low") (Some "won") (Some "Lee")).
Proof.
  destruct (@reupload_leaves_table_unchanged Sample.reader Sample.csv Sample.stored ""
              Sample.batch eq_refl eq_refl eq_refl) as [Hsame Hstored].
  split; [exact Hsame|].
  destruct (Hstored eq_refl) as [_ Hlast].
  apply (Hlast [Sample.ann; Sample.bad_id; Sample.short; Sample.no_id]
               Sample.ann_again []
               (Models.mkLead 1
                  (Models.mkCols (Some "Ann B") (Some "ann@example.org")
                     (Some "fair") (Some "low") (Some "won") (Some "Lee"))));
    [reflexivity | reflexivity | reflexivity | constructor].
Defined.


(** ** The lead listing *)

Lemma filter_fmap {A B} (f : B → bool) (g : A → B) (l : list A) :
  List.filter f (g <$> l) = g <$> List.filter (λ x, f (g x)) l.
Proof.
  induction l as [|x l IH]; [done|].
  rewrite fmap_cons. cbn [List.filter].
  destruct (f (g x)); [rewrite fmap_cons|]; by rewrite IH.
Qed.

(** In a list of bindings without a repeated key, selecting a key gives
    the binding of that key and nothing else. *)
Lemma filter_unique_key {V} (l : list (Z * V)) (i : Z) :
  NoDup l.*1 →
  List.filter (λ kc, Z.eqb kc.1 i) l
  = match (list_to_map l : gmap Z V) !! i with
    | Some c => [(i, c)]
    | None => []
    end.
Proof.
  induction l as [|[k c] l IH]; intros Hnd; [done|].
  apply NoDup_cons in Hnd as [Hk Hnd]. specialize (IH Hnd). cbn.
  destruct (Z.eqb_spec k i) as [->|Hne].
  - rewrite lookup_insert_eq. f_equal. rewrite IH.
    by rewrite (not_elem_of_list_to_map_1 _ _ Hk).
  - by rewrite lookup_insert_ne.
Qed.

Lemma select_by_id (t : Table) (i : Z) :
  List.filter (λ lead, Z.eqb (Models.id lead) i) (Orm.objects t)
  = match t !! i with
    | Some c => [Models.mkLead i c]
    | None => []
    end.
Proof.
  unfold Orm.objects. rewrite filter_fmap. cbn [Models.id].
  rewrite filter_unique_key by apply NoDup_fst_map_to_list.
  rewrite list_to_map_to_list. by destruct (t !! i).
Qed.

Lemma elem_of_objects (t : Table) (lead : Models.Lead) :
  lead ∈ Orm.objects t ↔ t !! Models.id lead = Some (Models.cols lead).
Proof.
  unfold Orm.objects. rewrite list_elem_of_fmap. split.
  - intros [[k c] [-> Hin]]. by apply elem_of_map_to_list in Hin.
  - intros Hin. exists (Models.id lead, Models.cols lead).
    split; [by destruct lead | by apply elem_of_map_to_list].
Qed.

Lemma wanted_true (param col : option string) :
  Spec.wanted param col = true ↔ ∀ v, param = Some v → col = Some v.
Proof.
  unfold Spec.wanted. destruct param as [v|]; [|by split].
  destruct col as [c|].
  - rewrite String.eqb_eq. split; [by intros -> ? [= <-] | intros H].
    by specialize (H v eq_refl) as [= ->].
  - split; [done|]. intros H. by specialize (H v eq_refl).
Qed.

(** With [id], the result is the row stored under that key, if any. *)
Lemma get_leads_by_id_run (i : Z)
    (name source interest_level status salesperson : option string)
    (h : Request.t) :
  Main.get_leads (Some i) name source interest_level status salesperson h
  = (Ok match Orm.table (Request.session h) !! i with
        | Some c => [Models.mkLead i c]
        | None => []
        end, h).
Proof.
  destruct h as [s out].
  unfold Main.get_leads, Request.db, Orm.all, Orm.filter, Orm.query, Orm.eq_int.
  cbn [Orm.criteria app Request.session Request.stdout]. do 2 f_equal.
  rewrite <-select_by_id. apply List.filter_ext.
  intros lead. cbn. apply andb_true_r.
Qed.

(** Without [id], the criteria added one by one select what [matches]
    selects. *)
Lemma get_leads_filtered_run
    (name source interest_level status salesperson : option string)
    (h : Request.t) :
  Main.get_leads None name source interest_level status salesperson h
  = (Ok (List.filter
           (Spec.matches name source interest_level status salesperson)
           (Orm.objects (Orm.table (Request.session h)))), h).
Proof.
  destruct h as [s out].
  unfold Main.get_leads, Request.db, Orm.all.
  cbn [Request.session Request.stdout]. do 2 f_equal.
  apply List.filter_ext. intros lead.
  unfold Spec.matches, Spec.wanted.
  destruct name, source, interest_level, status, salesperson;
    cbn; unfold Orm.eq_str; rewrite ?andb_true_r, ?andb_assoc; reflexivity.
Qed.

Lemma get_leads_unfiltered_run (h : Request.t) :
  Main.get_leads None None None None None None h
  = (Ok (Orm.objects (Orm.table (Request.session h))), h).
Proof.
  destruct h as [s out].
  unfold Main.get_leads, Request.db, Orm.all. cbn. do 2 f_equal.
  induction (Orm.objects (Orm.table s)) as [|x l IH]; cbn; congruence.
Qed.

(** C3.  When [id] is given, [get_leads] returns what it returns for that
    [id] alone: the other five parameters play no part.  The one criterion
    of the query is [Lead.id == id], so the result is the row stored under
    that primary key, or nothing: at most one record.  The response of
    [GET /leads/] is that result passed through the response model. *)
Theorem id_filter_ignores_the_other_filters (i : Z)
    (name source interest_level status salesperson : option string)
    (h : Request.t) :
  Main.get_leads (Some i) name source interest_level status salesperson h
  = Main.get_leads (Some i) None None None None None h
  ∧ Main.get_leads (Some i) name source interest_level status salesperson h
    = (Ok match Orm.table (Request.session h) !! i with
          | Some c => [Models.mkLead i c]
          | None => []
          end, h)
  ∧ (∀ leads,
       (Main.get_leads (Some i) name source interest_level status salesperson h).1
       = Ok leads →
       (length leads ≤ 1)%nat ∧ ∀ lead, lead ∈ leads → Models.id lead = i)
  ∧ (∀ db : Table,
       Main.GET_leads (Some i) name source interest_level status salesperson db
       = Main.GET_leads (Some i) None None None None None db
       ∧ Main.GET_leads (Some i) name source interest_level status salesperson db
         = respond (serialize_response
                      match db !! i with
                      | Some c => [Models.mkLead i c]
                      | None => []
                      end)).
Proof.
  pose proof (get_leads_by_id_run i name source interest_level status
                salesperson h) as Hrun.
  split; [by rewrite Hrun, get_leads_by_id_run|]. split; [done|]. split.
  2: { intros db. split; [done|].
       unfold Main.GET_leads, Request.get_database_session.
       by rewrite get_leads_by_id_run. }
  intros leads. rewrite Hrun. cbn [fst]. intros [= <-].
  destruct (Orm.table (Request.session h) !! i); cbn; split; try lia.
  - by intros lead ->%list_elem_of_singleton.
  - by intros lead ?%elem_of_nil.
Qed.

Lemma id_filter_witness :
  (Main.get_leads (Some 5) (Some "nobody") None None (Some "lost") None
     (Request.mk (Orm.SessionLocal Sample.stored) [])).1
  = Ok [Models.mkLead 5 (Models.mkCols (Some "Eve") (Some "eve@example.org")
                           (Some "web") (Some "low") (Some "new") (Some "Kim"))].
Proof.
  destruct (id_filter_ignores_the_other_filters
              5 (Some "nobody") None None (Some "lost") None
              (Request.mk (Orm.SessionLocal Sample.stored) [])) as (_ & -> & _).
  reflexivity.
Defined.

(** C9.  When [id] is absent, [get_leads] returns the stored leads that
    satisfy all the filters that were given: a lead is in the result
    exactly when it is stored and, for each parameter that is present, its
    column holds the requested text.  With no parameter at all the result
    is every stored lead.  The response of [GET /leads/] is that result
    passed through the response model. *)
Theorem filters_without_id_are_conjunctive
    (name source interest_level status salesperson : option string)
    (h : Request.t) :
  Main.get_leads None name source interest_level status salesperson h
  = (Ok (List.filter
           (Spec.matches name source interest_level status salesperson)
           (Orm.objects (Orm.table (Request.session h)))), h)
  ∧ (∀ lead,
       lead ∈ List.filter
                (Spec.matches name source interest_level status salesperson)
                (Orm.objects (Orm.table (Request.session h)))
       ↔ Orm.table (Request.session h) !! Models.id lead = Some (Models.cols lead)
         ∧ (∀ v, name = Some v → Models.lead_name (Models.cols lead) = Some v)
         ∧ (∀ v, source = Some v → Models.source (Models.cols lead) = Some v)
         ∧ (∀ v, interest_level = Some v →
                 Models.interest_level (Models.cols lead) = Some v)
         ∧ (∀ v, status = Some v → Models.status (Models.cols lead) = Some v)
         ∧ (∀ v, salesperson = Some v →
                 Models.salesperson (Models.cols lead) = Some v))
  ∧ Main.get_leads None None None None None None h
    = (Ok (Orm.objects (Orm.table (Request.session h))), h)
  ∧ (∀ db : Table,
       Main.GET_leads None name source interest_level status salesperson db
       = respond (serialize_response
                    (List.filter
                       (Spec.matches name source interest_level status
                                     salesperson)
                       (Orm.objects db)))).
Proof.
  split; [|split; [|split]].
  - apply get_leads_filtered_run.
  - intros lead. rewrite list_elem_of_In, List.filter_In, <-list_elem_of_In.
    rewrite elem_of_objects. unfold Spec.matches.
    rewrite !andb_true_iff, !wanted_true. tauto.
  - apply get_leads_unfiltered_run.
  - intros db. unfold Main.GET_leads, Request.get_database_session.
    by rewrite get_leads_filtered_run.
Qed.

(** ** The response model *)

Lemma model_validate_null (lead : Models.Lead) :
  Spec.has_null (Models.cols lead) = true → Schema.model_validate lead = None.
Proof.
  destruct lead as [i [a b c d e f]]. unfold Spec.has_null, Schema.model_validate.
  cbn [Models.cols Models.lead_name Models.email Models.source
       Models.interest_level Models.status Models.salesperson].
  destruct a, b, c, d, e, f; cbn; try discriminate; intros _;
    repeat (case (_ <=? _)%nat; cbn); reflexivity.
Qed.

Lemma serialize_response_rejects (leads : list Models.Lead) (lead : Models.Lead) :
  lead ∈ leads →
  Schema.model_validate lead = None →
  serialize_response leads = Raise ResponseValidationError.
Proof.
  intros Hin Hnone. induction leads as [|x leads IH]; [by apply elem_of_nil in Hin|].
  cbn. apply elem_of_cons in Hin as [<-|Hin]; [by rewrite Hnone|].
  destruct (Schema.model_validate x); [|done]. by rewrite (IH Hin).
Qed.

Lemma Lead_of_row_cols (row : Row) (lead : Models.Lead) :
  Main.Lead_of_row row = Ok lead →
  Models.cols lead
  = Models.mkCols (Main.get row "Lead Name")
                  (Main.get row "Contact Information")
                  (Main.get row "Source")
                  (Main.get row "Interest Level")
                  (Main.get row "Status")
                  (Main.get row "Assigned Salesperson").
Proof.
  unfold Main.Lead_of_row. run.
  destruct (Main.getitem row "Lead ID") as [v|]; [|done].
  destruct (Py.int v); [|done]. by intros [= <-].
Qed.

(** C10.  [LeadRead] types the six text fields as [str], while [Lead]
    lets each of them be NULL, which is what a CSV row without that
    column or field produces.  A lead with a NULL in any of the six is
    rejected by the response model, and a request to [GET /leads/] whose
    query selects such a lead is answered with an error (status 500)
    instead of the records: in particular the unfiltered listing and the
    listing by that lead's id. *)
Theorem null_column_fails_the_listing :
  (∀ row lead header,
     Main.Lead_of_row row = Ok lead →
     header ∈ Spec.text_headers →
     Main.get row header = None →
     Spec.has_null (Models.cols lead) = true)
  ∧ (∀ lead,
       Spec.has_null (Models.cols lead) = true →
       Schema.model_validate lead = None)
  ∧ (∀ id name source interest_level status salesperson db leads lead,
       (Request.get_database_session
          (Main.get_leads id name source interest_level status salesperson)
          db).1 = Ok leads →
       lead ∈ leads →
       Spec.has_null (Models.cols lead) = true →
       Main.GET_leads id name source interest_level status salesperson db
       = ErrorResponse 500 (Text "Internal Server Error"))
  ∧ (∀ (db : Table) i c,
       db !! i = Some c →
       Spec.has_null c = true →
       Main.GET_leads None None None None None None db
       = ErrorResponse 500 (Text "Internal Server Error")
       ∧ Main.GET_leads (Some i) None None None None None db
         = ErrorResponse 500 (Text "Internal Server Error")).
Proof.
  assert (∀ id name source interest_level status salesperson db leads lead,
       (Request.get_database_session
          (Main.get_leads id name source interest_level status salesperson)
          db).1 = Ok leads →
       lead ∈ leads →
       Spec.has_null (Models.cols lead) = true →
       Main.GET_leads id name source interest_level status salesperson db
       = ErrorResponse 500 (Text "Internal Server Error")) as Hsel.
  { intros id name source interest_level status salesperson db leads lead
      Hrun Hin Hnull.
    unfold Main.GET_leads. rewrite Hrun. cbn.
    by rewrite (serialize_response_rejects leads lead Hin
                  (model_validate_null lead Hnull)). }
  split; [|split; [|split]].
  - intros row lead header Hlead Hin Hget.
    rewrite (Lead_of_row_cols _ _ Hlead). unfold Spec.text_headers in Hin.
    unfold Spec.has_null.
    cbn [Models.lead_name Models.email Models.source Models.interest_level
         Models.status Models.salesperson].
    repeat (apply elem_of_cons in Hin as [->|Hin];
            [rewrite Hget; cbn; by rewrite ?orb_true_r|]).
    by apply elem_of_nil in Hin.
  - apply model_validate_null.
  - exact Hsel.
  - intros db i c Hi Hnull.
    assert (Models.mkLead i c ∈ Orm.objects db) as Hobj by by apply elem_of_objects.
    split.
    + apply (Hsel None None None None None None db (Orm.objects db)
                  (Models.mkLead i c)); [|done..].
      unfold Request.get_database_session.
      by rewrite get_leads_unfiltered_run.
    + apply (Hsel (Some i) None None None None None db [Models.mkLead i c]
                  (Models.mkLead i c)); [|by apply list_elem_of_singleton|done].
      unfold Request.get_database_session.
      rewrite get_leads_by_id_run. cbn. by rewrite Hi.
Qed.

Lemma null_column_witness :
  Main.GET_leads None None None None None None
    (@Main.POST_files Sample.reader Sample.csv ∅).2
  = ErrorResponse 500 (Text "Internal Server Error").
Proof.
  destruct null_column_fails_the_listing as (_ & _ & _ & H).
  apply (H (@Main.POST_files Sample.reader Sample.csv ∅).2 7
           (Models.mkCols None None None None None None)).
  - vm_compute. reflexivity.
  - reflexivity.
Defined.

(** ** The startup gate *)

(** [comprehensive_db_check] in a world where the hosting flag is not
    set: the checks tried and the verdict are those of the sequential
    gate, except that an exception of [test_connection] that is not a
    [SQLAlchemyError] is not turned into a verdict but propagates. *)
Lemma comprehensive_db_check_run (w : Dbconf.World) (t : list Dbconf.Event) :
  truthy (Dbconf.RAILWAY_ENVIRONMENT_NAME w) = false →
  Dbconf.comprehensive_db_check w t
  = (match Dbconf.select_1 w with
     | Some e =>
         if is_SQLAlchemyError e then Ok false else Raise e
     | None => Ok (Spec.gate w Spec.startup_checks).2
     end,
     t ++ (Dbconf.Ran <$> (Spec.gate w Spec.startup_checks).1)).
Proof.
  intros Hflag. unfold Dbconf.comprehensive_db_check. rewrite Hflag.
  unfold Dbconf.test_connection, Dbconf.check_migration_status,
    Dbconf.check_schema_drift, Dbconf.emit, Dbconf.rev_ne. run.
  unfold Spec.startup_checks, Spec.gate, Spec.passes.
  destruct (Dbconf.select_1 w) as [e|]; cbn.
  { by destruct (is_SQLAlchemyError e). }
  destruct (Dbconf.revisions w) as [[current head]|]; cbn;
    [|by rewrite <-app_assoc].
  destruct (decide (current = head)) as [Heq|Hne];
    [rewrite (bool_decide_eq_true_2 _ Heq)
    |rewrite (bool_decide_eq_false_2 _ Hne)]; cbn;
    [|by rewrite <-app_assoc].
  destruct (Dbconf.metadata_diff w) as [[|op diff]|]; cbn;
    by rewrite <-!app_assoc.
Qed.

Lemma gate_verdict (w : Dbconf.World) (checks : list Dbconf.Check) :
  (Spec.gate w checks).2 = forallb (Spec.passes w) checks.
Proof.
  induction checks as [|c checks IH]; [done|]. cbn.
  destruct (Spec.passes w c); [|done].
  by destruct (Spec.gate w checks).
Qed.

(** The gate tries a prefix of the checks, up to and including the first
    one that does not pass. *)
Lemma gate_tried (w : Dbconf.World) (checks : list Dbconf.Check) :
  ∃ later,
    checks = (Spec.gate w checks).1 ++ later
    ∧ Forall (λ c, Spec.passes w c = true)
             (removelast (Spec.gate w checks).1)
    ∧ ((Spec.gate w checks).2 = true → later = [])
    ∧ ((Spec.gate w checks).2 = false →
       ∃ c, last (Spec.gate w checks).1 = Some c ∧ Spec.passes w c = false).
Proof.
  induction checks as [|c checks (later & Hsplit & Hpass & Hok & Hfail)].
  { exists []. cbn. repeat split; [constructor | done]. }
  cbn. destruct (Spec.passes w c) eqn:Hc.
  - destruct (Spec.gate w checks) as [tried verdict]. cbn in *.
    exists later. split; [by rewrite Hsplit at 1|].
    split; [|split; [done|]].
    + destruct tried; [constructor | by constructor].
    + intros Hv. destruct (Hfail Hv) as (c' & Hlast & Hc').
      exists c'. split; [|done]. by destruct tried.
  - exists checks. cbn. repeat split; [constructor | done | eauto].
Qed.

(** C6.  When the hosting flag is set (the variable has a non-empty
    value, which is what the code tests), [comprehensive_db_check] returns
    [True] and runs no check.  Otherwise it is the sequential gate over
    connection, migration status, schema drift, in this order: the checks
    it runs are a prefix of these three, every check before the last one
    run has passed, it returns [True] only after all three were run, and
    when it fails the last check run is the one that did not pass.  (When
    [test_connection] raises something that is not a [SQLAlchemyError] the
    failure is that exception instead of [False]; nothing else is run
    either.) *)
Theorem health_check_is_a_sequential_gate
    (w : Dbconf.World) (t : list Dbconf.Event) :
  (truthy (Dbconf.RAILWAY_ENVIRONMENT_NAME w) = true →
   Dbconf.comprehensive_db_check w t = (Ok true, t))
  ∧ (truthy (Dbconf.RAILWAY_ENVIRONMENT_NAME w) = false →
     ∃ ran later,
       (Dbconf.comprehensive_db_check w t).2 = t ++ (Dbconf.Ran <$> ran)
       ∧ ran = (Spec.gate w Spec.startup_checks).1
       ∧ [Dbconf.Connection; Dbconf.MigrationStatus; Dbconf.SchemaDrift]
         = ran ++ later
       ∧ Forall (λ c, Spec.passes w c = true) (removelast ran)
       ∧ ((Dbconf.comprehensive_db_check w t).1 = Ok true ↔
          Forall (λ c, Spec.passes w c = true) Spec.startup_checks)
       ∧ ((Dbconf.comprehensive_db_check w t).1 = Ok true → later = [])
       ∧ ((Dbconf.comprehensive_db_check w t).1 ≠ Ok true →
          ∃ c, last ran = Some c ∧ Spec.passes w c = false
               ∧ ((Dbconf.comprehensive_db_check w t).1 = Ok false
                  ∨ c = Dbconf.Connection
                    ∧ ∃ e, Dbconf.select_1 w = Some e
                           ∧ (Dbconf.comprehensive_db_check w t).1 = Raise e))).
Proof.
  split.
  - intros Hflag. unfold Dbconf.comprehensive_db_check. by rewrite Hflag.
  - intros Hflag. rewrite (comprehensive_db_check_run w t Hflag). cbn [fst snd].
    destruct (gate_tried w Spec.startup_checks)
      as (later & Hsplit & Hpass & Hok & Hfail).
    pose proof (gate_verdict w Spec.startup_checks) as Hverdict.
    exists (Spec.gate w Spec.startup_checks).1, later.
    assert ((Spec.gate w Spec.startup_checks).2 = true ↔
            Forall (λ c, Spec.passes w c = true) Spec.startup_checks) as Hall.
    { rewrite Hverdict, forallb_forall, Forall_forall.
      by setoid_rewrite list_elem_of_In. }
    assert (Dbconf.select_1 w = None ∨ ∃ e, Dbconf.select_1 w = Some e)
      as [Hsel|[e Hsel]] by (destruct (Dbconf.select_1 w); eauto).
    + rewrite Hsel.
      repeat split; try done.
      * intros [= Hv]. by apply Hall.
      * intros Hv. f_equal. by apply Hall.
      * intros [= Hv]. by apply Hok.
      * intros Hne. destruct ((Spec.gate w Spec.startup_checks).2) eqn:Hv;
          [done|]. destruct (Hfail eq_refl) as (c & Hlast & Hc). eauto 6.
    + rewrite Hsel.
      assert ((Spec.gate w Spec.startup_checks).2 = false) as Hv.
      { rewrite Hverdict. cbn. by rewrite Hsel. }
      assert ((Spec.gate w Spec.startup_checks).1 = [Dbconf.Connection]) as Hran.
      { unfold Spec.startup_checks. cbn. by rewrite Hsel. }
      repeat split; try done.
      * by destruct (is_SQLAlchemyError e).
      * intros Hforall. apply Hall in Hforall. congruence.
      * by destruct (is_SQLAlchemyError e).
      * intros _. exists Dbconf.Connection. rewrite Hran. cbn. rewrite Hsel.
        repeat split. destruct (is_SQLAlchemyError e); eauto.
Qed.

Lemma health_check_witness :
  Dbconf.comprehensive_db_check Sample.unreachable_hosted [] = (Ok true, [])
  ∧ ∃ ran later,
      (Dbconf.comprehensive_db_check Sample.behind []).2
      = [] ++ (Dbconf.Ran <$> ran)
      ∧ ran = [Dbconf.Connection; Dbconf.MigrationStatus]
      ∧ later = [Dbconf.SchemaDrift].
Proof.
  split.
  - apply (proj1 (health_check_is_a_sequential_gate Sample.unreachable_hosted [])).
    reflexivity.
  - destruct (proj2 (health_check_is_a_sequential_gate Sample.behind [])
                eq_refl) as (ran & later & Hran & -> & Hsplit & _).
    exists (Spec.gate Sample.behind Spec.startup_checks).1, later.
    split; [exact Hran|]. split; [reflexivity|].
    cbn in Hsplit. by injection Hsplit as <-.
Defined.

(** C7.  Outside managed hosting (the flag is not set), if one of the
    three checks does not pass, [startup_event] raises, and so does the
    main block, with the same exception and before [uvicorn.run]: the only
    events of the run are checks.  The exception is the [RuntimeError] of
    [startup_event], or the exception of [test_connection] when that one is
    not a [SQLAlchemyError]. *)
Theorem failed_check_aborts_startup
    (w : Dbconf.World) (t : list Dbconf.Event) (c : Dbconf.Check) :
  truthy (Dbconf.RAILWAY_ENVIRONMENT_NAME w) = false →
  Spec.passes w c = false →
  ∃ e ran,
    Main.startup_event w t = (Raise e, t ++ (Dbconf.Ran <$> ran))
    ∧ Main.main w t = (Raise e, t ++ (Dbconf.Ran <$> ran))
    ∧ (e = RuntimeError "Database issues detected - may have unexpected behaviors"
       ∨ Dbconf.select_1 w = Some e).
Proof.
  intros Hflag Hc.
  assert (forallb (Spec.passes w) Spec.startup_checks = false) as Hv.
  { unfold Spec.startup_checks. cbn [forallb].
    destruct c; rewrite Hc; by rewrite ?andb_false_r. }
  rewrite <-gate_verdict in Hv.
  pose proof (comprehensive_db_check_run w t Hflag) as Hrun.
  unfold Main.main, Main.startup_event. run. rewrite Hrun, Hv.
  destruct (Dbconf.select_1 w) as [e|]; [destruct (is_SQLAlchemyError e)|];
    cbn; eauto 8.
Qed.

Lemma failed_check_witness :
  ∃ e ran,
    Main.startup_event Sample.behind [] = (Raise e, [] ++ (Dbconf.Ran <$> ran))
    ∧ Main.main Sample.behind [] = (Raise e, [] ++ (Dbconf.Ran <$> ran))
    ∧ (e = RuntimeError "Database issues detected - may have unexpected behaviors"
       ∨ Dbconf.select_1 Sample.behind = Some e).
Proof.
  apply (failed_check_aborts_startup Sample.behind [] Dbconf.MigrationStatus);
    reflexivity.
Defined.

(** ** Runs on the sample data *)

Example int_accepts :
  Py.int (Some "42") = Ok 42
  ∧ Py.int (Some "  -17 ") = Ok (-17)
  ∧ Py.int (Some "+007") = Ok 7
  ∧ Py.int (Some "1_000") = Ok 1000.
Proof. repeat split; reflexivity. Qed.

Example int_rejects :
  Py.int (Some "12a") = Raise ValueError
  ∧ Py.int (Some "") = Raise ValueError
  ∧ Py.int (Some "1__0") = Raise ValueError
  ∧ Py.int (Some "_1") = Raise ValueError
  ∧ Py.int (Some "- 5") = Raise ValueError
  ∧ Py.int (Some "1.0") = Raise ValueError
  ∧ Py.int None = Raise TypeError.
Proof. repeat split; reflexivity. Qed.

(** The separators U+001C to U+001F are not white space for [int]; the
    no-break space is. *)
Example int_rejects_separators :
  Py.int (Some (String "028"%char "12")) = Raise ValueError
  ∧ Py.int (Some (String "031"%char "12")) = Raise ValueError
  ∧ Py.int (Some (String "160"%char "12")) = Ok 12
  ∧ Main.Lead_of_row
      (Sample.row [("Lead ID", Some (String "028"%char "12"))])
    = Raise ValueError.
Proof. repeat split; vm_compute; reflexivity. Qed.

(** A text with more digits than the cap is refused, whatever the
    digits; up to the cap the digits decide. *)
Lemma int_refuses_long_numbers (s : string) :
  ((int_max_str_digits < count_digits s)%N → number s = None)
  ∧ ((count_digits s ≤ int_max_str_digits)%N → number s = digits s 0 false).
Proof.
  unfold number.
  destruct (N.leb_spec (count_digits s) int_max_str_digits); split;
    intros; first [done | lia].
Qed.

(** 4301 digits are refused, leading zeros counted, sign and white
    space not. *)
Example int_digit_cap :
  Py.int (Some (Strings.String.string_of_list_ascii
                  (replicate 4301 "1"%char)))
  = Raise ValueError
  ∧ Py.int (Some (String " "%char
                    (String "-"%char
                       (Strings.String.string_of_list_ascii
                          (replicate 4301 "0"%char)))))
    = Raise ValueError.
Proof. split; vm_compute; reflexivity. Qed.

Example rows_of_the_batch :
  Spec.lead_id <$> Sample.batch = [Some 1; None; Some 7; None; Some 1]
  ∧ Main.Lead_of_row Sample.bad_id = Raise ValueError
  ∧ Main.Lead_of_row Sample.no_id = Raise (KeyError "Lead ID").
Proof. repeat split; vm_compute; reflexivity. Qed.

Example upload_of_the_batch :
  @Main.POST_files Sample.reader Sample.csv ∅
  = (Response200 (Main.mkUploaded (Some "leads.csv") 3 "success"),
     <[1 := Models.mkCols (Some "Ann B") (Some "ann@example.org") (Some "fair")
                          (Some "low") (Some "won") (Some "Lee")]>
       (<[7 := Models.mkCols None None None None None None]> ∅)).
Proof. vm_compute. reflexivity. Qed.

(** A reader that raises after the first row: nothing is stored. *)
Example upload_cut_short :
  @Main.POST_files (Sample.reads (Yield Sample.ann (Abort csv_Error)))
     Sample.csv Sample.stored
  = (ErrorResponse 500 (FString "Failed to process file: " csv_Error),
     Sample.stored).
Proof. vm_compute. reflexivity. Qed.

(** A lead with all its fields is listed. *)
Example listing_of_a_complete_lead :
  Main.GET_leads (Some 5) None None None None None Sample.stored
  = Response200 [Schema.mkLeadRead 5 "Eve" "eve@example.org" "web" "low"
                                   "new" "Kim"].
Proof. vm_compute. reflexivity. Qed.

(** An empty value of the hosting variable does not count as set. *)
Example empty_flag_runs_the_checks :
  Dbconf.comprehensive_db_check
    (Dbconf.mkWorld (Some "") (Some SQLAlchemyError)
                    (Raise SQLAlchemyError) (Raise SQLAlchemyError)) []
  = (Ok false, [Dbconf.Ran Dbconf.Connection]).
Proof. reflexivity. Qed.

(** With every check passed, the main block still stops before
    [uvicorn.run], on the unbound name. *)
Lemma main_stops_on_unbound_name (w : Dbconf.World) (t : list Dbconf.Event) :
  ∃ e t', Main.main w t = (Raise e, t')
          ∧ (Main.startup_event w t = (Ok tt, t') → e = NameError "os").
Proof.
  unfold Main.main, Main.port. run.
  destruct (Main.startup_event w t) as [[[]|e] t']; eauto.
  eexists _, _. split; [reflexivity|]. done.
Qed.

Example healthy_start :
  Main.startup_event Sample.healthy []
  = (Ok tt, [Dbconf.Ran Dbconf.Connection; Dbconf.Ran Dbconf.MigrationStatus;
             Dbconf.Ran Dbconf.SchemaDrift]).
Proof. reflexivity. Qed.

(** * Further properties *)

(** ** What an upload does to the table *)

Section Table.
Context `{E : Externals}.

Lemma upsert_row_union (row : Row) (t : Table) :
  Spec.upsert_row row t = Spec.upsert_row row ∅ ∪ t.
Proof.
  unfold Spec.upsert_row, Spec.upsert.
  destruct (Main.Lead_of_row row) as [lead|]; [|by rewrite (left_id_L ∅ (∪))].
  destruct (merge_fault lead); [by rewrite (left_id_L ∅ (∪))|].
  by rewrite <-insert_union_l, (left_id_L ∅ (∪)).
Qed.

(** Upserting a batch into a table is laying the batch, upserted into
    an empty table, over it. *)
Lemma upsert_rows_union (rows : list Row) (t : Table) :
  Spec.upsert_rows rows t = Spec.upsert_rows rows ∅ ∪ t.
Proof.
  revert t. induction rows as [|row rows IH]; intros t.
  { unfold Spec.upsert_rows. cbn. by rewrite (left_id_L ∅ (∪)). }
  change (Spec.upsert_rows (row :: rows) ?u)
    with (Spec.upsert_rows rows (Spec.upsert_row row u)).
  rewrite (IH (Spec.upsert_row row t)), (IH (Spec.upsert_row row ∅)).
  by rewrite (upsert_row_union row t), (assoc_L (∪)).
Qed.

Lemma upsert_row_size (row : Row) (t : Table) :
  (size t ≤ size (Spec.upsert_row row t)
   ≤ size t + (if Spec.row_ok row then 1 else 0))%nat.
Proof.
  unfold Spec.upsert_row, Spec.row_ok, Spec.raised, Spec.upsert.
  destruct (Main.Lead_of_row row) as [lead|]; [|cbn; lia].
  destruct (merge_fault lead); [cbn; lia|].
  rewrite map_size_insert. destruct (t !! Models.id lead); cbn; lia.
Qed.

Lemma upsert_rows_size (rows : list Row) (t : Table) :
  (size t ≤ size (Spec.upsert_rows rows t) ≤ size t + Spec.count_ok rows)%nat.
Proof.
  revert t. induction rows as [|row rows IH]; intros t.
  { unfold Spec.count_ok. cbn. lia. }
  change (Spec.upsert_rows (row :: rows) t)
    with (Spec.upsert_rows rows (Spec.upsert_row row t)).
  rewrite count_ok_cons.
  pose proof (IH (Spec.upsert_row row t)). pose proof (upsert_row_size row t).
  lia.
Qed.

(** Every row is either counted or reported. *)
Lemma counted_or_skipped (rows : list Row) :
  (Spec.count_ok rows + length (Spec.skipped rows) = length rows)%nat.
Proof.
  induction rows as [|row rows IH]; [done|].
  rewrite count_ok_cons. unfold Spec.row_ok. cbn [Spec.skipped length].
  destruct (Spec.raised row); cbn [length]; lia.
Qed.

(** The table after an upload: either the table before it, or the rows
    of the file upserted over it. *)
Lemma POST_files_table (file : UploadFile.t) (db : Table) :
  (Main.POST_files file db).2 = db
  ∨ ∃ text,
      decode (UploadFile.read file) = Ok text
      ∧ (Main.POST_files file db).2
        = Spec.upsert_rows (Spec.rows_of (DictReader text)) db.
Proof.
  destruct (Main.is_type (UploadFile.content_type file) "text/csv") eqn:Hcsv.
  - rewrite (POST_files_csv _ _ Hcsv). cbv zeta.
    destruct (decode _) as [text|e]; [|by left].
    destruct (Spec.failure_of _); [by left|].
    destruct (commit_fault _ _); [by left|].
    right. exists text. split; [done|]. cbn [snd].
    by rewrite <-upsert_rows_union.
  - left. by apply POST_files_not_csv.
Qed.

End Table.

(** X1.  An upload never removes a lead: every id stored before it is
    stored after it, whatever the file and whatever goes wrong. *)
Theorem upload_never_removes_a_lead `{E : Externals}
    (file : UploadFile.t) (db : Table) :
  dom db ⊆ dom (Main.POST_files file db).2
  ∧ (size db ≤ size (Main.POST_files file db).2)%nat.
Proof.
  destruct (POST_files_table file db) as [->|(text & _ & ->)]; [done|].
  split; [|apply upsert_rows_size].
  rewrite upsert_rows_union, dom_union_L. set_solver.
Qed.

(** X2.  A lead whose id no row of the file carries is stored after the
    upload exactly as it was before. *)
Theorem upload_leaves_other_ids_alone `{E : Externals}
    (file : UploadFile.t) (db : Table) (i : Z) :
  (∀ text,
     decode (UploadFile.read file) = Ok text →
     Forall (λ row, Spec.lead_id row ≠ Some i) (Spec.rows_of (DictReader text))) →
  (Main.POST_files file db).2 !! i = db !! i.
Proof.
  intros Hrows.
  destruct (POST_files_table file db) as [->|(text & Hdec & ->)]; [done|].
  by apply upsert_rows_lookup_other, Hrows.
Qed.

Lemma other_ids_witness :
  (@Main.POST_files Sample.reader Sample.csv Sample.stored).2 !! 5
  = Sample.stored !! 5.
Proof.
  apply (@upload_leaves_other_ids_alone Sample.reader Sample.csv Sample.stored 5).
  intros text _.
  change (Forall (λ row, Spec.lead_id row ≠ Some 5) Sample.batch).
  repeat constructor; intros Hid; vm_compute in Hid; discriminate Hid.
Defined.

(** X3.  For a CSV upload read to the end, every row is either counted
    or reported: the lines printed and the rows that went through add up to
    the rows of the file, so [processed_count] plus the number of lines
    printed is the number of rows, and [processed_count] never exceeds
    it. *)
Theorem every_row_is_counted_or_reported `{E : Externals}
    (file : UploadFile.t) (db : Table) (text : string) (rows : list Row) :
  Main.is_type (UploadFile.content_type file) "text/csv" = true →
  decode (UploadFile.read file) = Ok text →
  DictReader text = yield_all rows →
  (length (Request.stdout
             (Request.get_database_session (Main.upload_file file) db).2)
   + Spec.count_ok rows = length rows)%nat
  ∧ ∀ body,
      (Request.get_database_session (Main.upload_file file) db).1 = Ok body →
      (Main.processed_count body
       + length (Request.stdout
                   (Request.get_database_session (Main.upload_file file) db).2)
       = length rows)%nat
      ∧ (Main.processed_count body ≤ length rows)%nat.
Proof.
  intros Hcsv Hdec Hread.
  destruct (rows_of_yield_all rows) as [Hrows Hend].
  rewrite (upload_csv_run _ _ Hcsv), Hdec, Hread. cbv zeta.
  rewrite Hend, Hrows. pose proof (counted_or_skipped rows).
  destruct (commit_fault _ _); cbn [fst snd Request.stdout].
  - split; [lia|]. by intros body.
  - split; [lia|]. intros body [= <-]. cbn. lia.
Qed.

Lemma counted_or_reported_witness :
  (length (Request.stdout
             (@Request.get_database_session _
                (@Main.upload_file Sample.reader Sample.csv) ∅).2)
   + @Spec.count_ok Sample.reader Sample.batch = 5)%nat.
Proof.
  apply (proj1 (@every_row_is_counted_or_reported Sample.reader Sample.csv ∅ ""
                  Sample.batch eq_refl eq_refl eq_refl)).
Defined.

(** X4.  A CSV upload adds at most one lead per counted row: the table
    grows by no more than [processed_count] and never shrinks. *)
Theorem table_grows_by_at_most_the_count `{E : Externals}
    (file : UploadFile.t) (db : Table) (text : string) (rows : list Row) :
  Main.is_type (UploadFile.content_type file) "text/csv" = true →
  decode (UploadFile.read file) = Ok text →
  DictReader text = yield_all rows →
  (size db ≤ size (Main.POST_files file db).2 ≤ size db + Spec.count_ok rows)%nat.
Proof.
  intros Hcsv Hdec Hread.
  destruct (rows_of_yield_all rows) as [Hrows Hend].
  rewrite (POST_files_csv _ _ Hcsv), Hdec, Hread. cbv zeta.
  rewrite Hend, Hrows.
  destruct (commit_fault _ _); cbn [snd]; [lia|].
  rewrite <-upsert_rows_union. apply upsert_rows_size.
Qed.

Lemma table_growth_witness :
  (size Sample.stored
   ≤ size (@Main.POST_files Sample.reader Sample.csv Sample.stored).2
   ≤ size Sample.stored + @Spec.count_ok Sample.reader Sample.batch)%nat.
Proof.
  apply (@table_grows_by_at_most_the_count Sample.reader Sample.csv
           Sample.stored "" Sample.batch); reflexivity.
Defined.

(** ** How uploads compose *)

Section Compose.
Context `{E : Externals}.

Lemma upsert_row_commute (r1 r2 : Row) (t : Table) :
  (∀ i, Spec.lead_id r1 = Some i → Spec.lead_id r2 ≠ Some i) →
  Spec.upsert_row r1 (Spec.upsert_row r2 t)
  = Spec.upsert_row r2 (Spec.upsert_row r1 t).
Proof.
  intros Hne. unfold Spec.upsert_row, Spec.upsert.
  pose proof (Lead_of_row_id r1) as H1. pose proof (Lead_of_row_id r2) as H2.
  destruct (Main.Lead_of_row r1) as [l1|]; [|done].
  destruct (Main.Lead_of_row r2) as [l2|]; [|done].
  destruct (merge_fault l1); [done|]. destruct (merge_fault l2); [done|].
  apply insert_insert_ne. intros Heq. apply (Hne _ H1). by rewrite H2, Heq.
Qed.

(** When no id occurs twice, the order of the rows does not matter. *)
Lemma upsert_rows_permutation (rows rows' : list Row) (t : Table) :
  rows ≡ₚ rows' →
  NoDup (omap Spec.lead_id rows) →
  Spec.upsert_rows rows t = Spec.upsert_rows rows' t.
Proof.
  intros Hperm. revert t.
  induction Hperm as [|x l l' Hperm IH|x y l|l l' l'' H1 IH1 H2 IH2];
    intros t Hnd.
  - done.
  - change (Spec.upsert_rows l (Spec.upsert_row x t)
            = Spec.upsert_rows l' (Spec.upsert_row x t)).
    apply IH. cbn in Hnd. destruct (Spec.lead_id x); [|done].
    by apply NoDup_cons in Hnd as [_ ?].
  - change (Spec.upsert_rows l (Spec.upsert_row x (Spec.upsert_row y t))
            = Spec.upsert_rows l (Spec.upsert_row y (Spec.upsert_row x t))).
    f_equal. apply upsert_row_commute. intros i Hx Hy.
    cbn in Hnd. rewrite Hx, Hy in Hnd.
    apply NoDup_cons in Hnd as [Hin _]. apply Hin. by left.
  - rewrite IH1 by done. apply IH2. by rewrite <-H1.
Qed.

Lemma count_ok_permutation (rows rows' : list Row) :
  rows ≡ₚ rows' → Spec.count_ok rows = Spec.count_ok rows'.
Proof.
  induction 1 as [|x l l' _ IH|x y l|l l' l'' _ IH1 _ IH2].
  - done.
  - by rewrite !count_ok_cons, IH.
  - rewrite !count_ok_cons. lia.
  - congruence.
Qed.

Lemma rows_without_id (rows : list Row) (t : Table) :
  Forall (λ row, Spec.lead_id row = None) rows →
  Spec.count_ok rows = 0%nat ∧ Spec.upsert_rows rows t = t.
Proof.
  induction 1 as [|row rows Hrow _ [IHc IHt]]; [done|].
  rewrite count_ok_cons, (row_without_id_not_ok _ Hrow), IHc. split; [done|].
  change (Spec.upsert_rows rows (Spec.upsert_row row t) = t).
  by rewrite (row_without_id_not_upserted _ _ Hrow).
Qed.

End Compose.

(** X5.  Uploading one file and then another leaves the table that
    uploading their rows as a single file leaves, and the two counts add
    up to the count of the single upload (all commits accepted). *)
Theorem two_uploads_equal_one_upload `{E : Externals}
    (first second both : UploadFile.t) (db : Table)
    (text1 text2 text12 : string) (rows1 rows2 : list Row) :
  Main.is_type (UploadFile.content_type first) "text/csv" = true →
  Main.is_type (UploadFile.content_type second) "text/csv" = true →
  Main.is_type (UploadFile.content_type both) "text/csv" = true →
  decode (UploadFile.read first) = Ok text1 →
  decode (UploadFile.read second) = Ok text2 →
  decode (UploadFile.read both) = Ok text12 →
  DictReader text1 = yield_all rows1 →
  DictReader text2 = yield_all rows2 →
  DictReader text12 = yield_all (rows1 ++ rows2) →
  commit_fault db (Spec.upsert_rows rows1 ∅) = None →
  commit_fault (Spec.upsert_rows rows1 ∅ ∪ db) (Spec.upsert_rows rows2 ∅) = None →
  commit_fault db (Spec.upsert_rows (rows1 ++ rows2) ∅) = None →
  (Main.POST_files second (Main.POST_files first db).2).2
  = (Main.POST_files both db).2
  ∧ ∃ b1 b2 b12,
      (Main.POST_files first db).1 = Response200 b1
      ∧ (Main.POST_files second (Main.POST_files first db).2).1 = Response200 b2
      ∧ (Main.POST_files both db).1 = Response200 b12
      ∧ Main.processed_count b12
        = (Main.processed_count b1 + Main.processed_count b2)%nat.
Proof.
  intros Hc1 Hc2 Hc12 Hd1 Hd2 Hd12 Hr1 Hr2 Hr12 Hk1 Hk2 Hk12.
  destruct (rows_of_yield_all rows1) as [Hrows1 Hend1].
  destruct (rows_of_yield_all rows2) as [Hrows2 Hend2].
  destruct (rows_of_yield_all (rows1 ++ rows2)) as [Hrows12 Hend12].
  rewrite (POST_files_csv first _ Hc1), Hd1, Hr1. cbv zeta.
  rewrite Hend1, Hrows1, Hk1. cbn [fst snd].
  rewrite (POST_files_csv second _ Hc2), Hd2, Hr2. cbv zeta.
  rewrite Hend2, Hrows2, Hk2. cbn [fst snd].
  rewrite (POST_files_csv both _ Hc12), Hd12, Hr12. cbv zeta.
  rewrite Hend12, Hrows12, Hk12. cbn [fst snd].
  split.
  - rewrite upsert_rows_app, (upsert_rows_union rows2 (Spec.upsert_rows rows1 ∅)).
    by rewrite (assoc_L (∪)).
  - eexists _, _, _. repeat split. cbn. apply count_ok_app.
Qed.

Lemma two_uploads_witness :
  (@Main.POST_files
     (Sample.by_size [Sample.ann; Sample.bad_id]
                     [Sample.short; Sample.ann_again]
                     [Sample.ann; Sample.bad_id; Sample.short; Sample.ann_again])
     (Sample.csv_of Sample.two_bytes)
     (@Main.POST_files
        (Sample.by_size [Sample.ann; Sample.bad_id]
                        [Sample.short; Sample.ann_again]
                        [Sample.ann; Sample.bad_id; Sample.short; Sample.ann_again])
        (Sample.csv_of Sample.one_byte) Sample.stored).2).2
  = (@Main.POST_files
       (Sample.by_size [Sample.ann; Sample.bad_id]
                       [Sample.short; Sample.ann_again]
                       [Sample.ann; Sample.bad_id; Sample.short; Sample.ann_again])
       (Sample.csv_of []) Sample.stored).2.
Proof.
  apply (@two_uploads_equal_one_upload
           (Sample.by_size [Sample.ann; Sample.bad_id]
                           [Sample.short; Sample.ann_again]
                           [Sample.ann; Sample.bad_id; Sample.short;
                            Sample.ann_again])
           (Sample.csv_of Sample.one_byte) (Sample.csv_of Sample.two_bytes)
           (Sample.csv_of []) Sample.stored "one" "two" "other"
           [Sample.ann; Sample.bad_id] [Sample.short; Sample.ann_again]);
    reflexivity.
Defined.

(** X6.  When no id occurs in two rows, the order of the rows in the
    file does not matter: two CSV uploads with the same rows in different
    orders leave the same table and report the same count. *)
Theorem row_order_is_irrelevant_for_distinct_ids `{E : Externals}
    (file file' : UploadFile.t) (db : Table)
    (text text' : string) (rows rows' : list Row) :
  Main.is_type (UploadFile.content_type file) "text/csv" = true →
  Main.is_type (UploadFile.content_type file') "text/csv" = true →
  decode (UploadFile.read file) = Ok text →
  decode (UploadFile.read file') = Ok text' →
  DictReader text = yield_all rows →
  DictReader text' = yield_all rows' →
  rows ≡ₚ rows' →
  NoDup (omap Spec.lead_id rows) →
  (Main.POST_files file db).2 = (Main.POST_files file' db).2
  ∧ Spec.count_ok rows = Spec.count_ok rows'
  ∧ ∀ body body',
      (Main.POST_files file db).1 = Response200 body →
      (Main.POST_files file' db).1 = Response200 body' →
      Main.processed_count body = Main.processed_count body'.
Proof.
  intros Hc Hc' Hd Hd' Hr Hr' Hperm Hnd.
  destruct (rows_of_yield_all rows) as [Hrows Hend].
  destruct (rows_of_yield_all rows') as [Hrows' Hend'].
  rewrite (POST_files_csv file _ Hc), Hd, Hr. cbv zeta.
  rewrite (POST_files_csv file' _ Hc'), Hd', Hr'. cbv zeta.
  rewrite Hend, Hrows, Hend', Hrows'.
  rewrite <-(upsert_rows_permutation rows rows' ∅ Hperm Hnd).
  pose proof (count_ok_permutation rows rows' Hperm) as Hcount.
  destruct (commit_fault _ _); cbn [fst snd]; [done|].
  repeat split; [done|]. by intros body body' [= <-] [= <-].
Qed.

Lemma row_order_witness :
  (@Main.POST_files
     (Sample.by_size [Sample.ann; Sample.short] [Sample.short; Sample.ann] [])
     (Sample.csv_of Sample.one_byte) Sample.stored).2
  = (@Main.POST_files
       (Sample.by_size [Sample.ann; Sample.short] [Sample.short; Sample.ann] [])
       (Sample.csv_of Sample.two_bytes) Sample.stored).2.
Proof.
  apply (@row_order_is_irrelevant_for_distinct_ids
           (Sample.by_size [Sample.ann; Sample.short]
                           [Sample.short; Sample.ann] [])
           (Sample.csv_of Sample.one_byte) (Sample.csv_of Sample.two_bytes)
           Sample.stored "one" "two"
           [Sample.ann; Sample.short] [Sample.short; Sample.ann]);
    try reflexivity.
  - apply perm_swap.
  - replace (omap Spec.lead_id [Sample.ann; Sample.short]) with [1; 7]
      by (vm_compute; reflexivity).
    apply NoDup_cons. split; [|apply NoDup_singleton].
    intros Hin%list_elem_of_singleton. discriminate Hin.
Defined.

(** X7.  A CSV upload in which no row offers a readable id (for one, a
    file without the ["Lead ID"] column) is not an error: it is answered
    with status 200 and [processed_count = 0], and the table is left as it
    was (the commit of nothing being accepted). *)
Theorem upload_without_ids_reports_success `{E : Externals}
    (file : UploadFile.t) (db : Table) (text : string) (rows : list Row) :
  Main.is_type (UploadFile.content_type file) "text/csv" = true →
  decode (UploadFile.read file) = Ok text →
  DictReader text = yield_all rows →
  Forall (λ row, Spec.lead_id row = None) rows →
  commit_fault db ∅ = None →
  Main.POST_files file db
  = (Response200 (Main.mkUploaded (UploadFile.filename file) 0 "success"), db)
  ∧ length (Request.stdout
              (Request.get_database_session (Main.upload_file file) db).2)
    = length rows.
Proof.
  intros Hcsv Hdec Hread Hbad Hcommit.
  destruct (rows_of_yield_all rows) as [Hrows Hend].
  destruct (rows_without_id rows ∅ Hbad) as [Hcount Htable].
  pose proof (counted_or_skipped rows) as Hsum.
  rewrite (POST_files_csv _ _ Hcsv), (upload_csv_run _ _ Hcsv), Hdec, Hread.
  cbv zeta. rewrite Hend, Hrows, Htable, Hcommit, Hcount.
  rewrite (left_id_L ∅ (∪)). split; [done|]. cbn. lia.
Qed.

Lemma upload_without_ids_witness :
  @Main.POST_files (Sample.reads (yield_all [Sample.no_header; Sample.bad_id]))
    Sample.csv Sample.stored
  = (Response200 (Main.mkUploaded (Some "leads.csv") 0 "success"),
     Sample.stored).
Proof.
  apply (@upload_without_ids_reports_success
           (Sample.reads (yield_all [Sample.no_header; Sample.bad_id]))
           Sample.csv Sample.stored ""
           [Sample.no_header; Sample.bad_id]); try reflexivity.
  repeat constructor.
Defined.

(** X8.  The loop body reads seven columns and nothing else: adding,
    changing or removing any other column of a row changes neither the
    [Lead] built from it nor the exception raised. *)
Theorem other_columns_are_ignored (row : Row) (header : string)
    (field : option string) :
  header ∉ Spec.lead_headers →
  Main.Lead_of_row (<[header := field]> row) = Main.Lead_of_row row
  ∧ Main.Lead_of_row (delete header row) = Main.Lead_of_row row.
Proof.
  intros Hnot. unfold Spec.lead_headers, Spec.text_headers in Hnot.
  rewrite !not_elem_of_cons in Hnot.
  destruct Hnot as (? & ? & ? & ? & ? & ? & ? & _).
  unfold Main.Lead_of_row, Main.getitem, Main.get.
  by rewrite !lookup_insert_ne, !lookup_delete_ne.
Qed.

Lemma other_columns_witness :
  Main.Lead_of_row (<["Notes" := Some "call back"]> Sample.ann)
  = Main.Lead_of_row Sample.ann.
Proof.
  apply (other_columns_are_ignored Sample.ann "Notes" (Some "call back")).
  unfold Spec.lead_headers, Spec.text_headers.
  rewrite !not_elem_of_cons. repeat split; try discriminate.
  apply not_elem_of_nil.
Defined.

(** ** What a listing holds *)

Lemma filter_sublist {A} (f : A → bool) (l : list A) :
  sublist (List.filter f l) l.
Proof.
  induction l as [|x l IH]; [constructor|]. cbn.
  destruct (f x); by constructor.
Qed.

Lemma objects_ids (t : Table) :
  Models.id <$> Orm.objects t = (map_to_list t).*1.
Proof.
  unfold Orm.objects. rewrite <-list_fmap_compose.
  by apply list_fmap_ext.
Qed.

Lemma get_leads_returns (id : option Z)
    (name source interest_level status salesperson : option string)
    (h : Request.t) :
  Main.get_leads id name source interest_level status salesperson h
  = (Ok match id with
        | Some i => match Orm.table (Request.session h) !! i with
                    | Some c => [Models.mkLead i c]
                    | None => []
                    end
        | None => List.filter
                    (Spec.matches name source interest_level status salesperson)
                    (Orm.objects (Orm.table (Request.session h)))
        end, h).
Proof.
  destruct id as [i|];
    [apply get_leads_by_id_run | apply get_leads_filtered_run].
Qed.

(** X9.  Whatever the parameters, [get_leads] returns and changes
    nothing: the session and the output are as they were.  Every lead of
    its result is a stored lead and is in the unfiltered listing, no id
    occurs twice, and there are no more records than stored leads.  So a
    filter can only take records away. *)
Theorem every_listing_is_part_of_the_full_listing (id : option Z)
    (name source interest_level status salesperson : option string)
    (h : Request.t) :
  ∃ leads everything,
    Main.get_leads id name source interest_level status salesperson h
    = (Ok leads, h)
    ∧ Main.get_leads None None None None None None h = (Ok everything, h)
    ∧ (∀ lead, lead ∈ leads → lead ∈ everything)
    ∧ (∀ lead, lead ∈ leads →
               Orm.table (Request.session h) !! Models.id lead
               = Some (Models.cols lead))
    ∧ NoDup (Models.id <$> leads)
    ∧ (length leads ≤ size (Orm.table (Request.session h)))%nat.
Proof.
  set (t := Orm.table (Request.session h)).
  assert (∀ leads, sublist leads (Orm.objects t) →
            NoDup (Models.id <$> leads) ∧ (length leads ≤ size t)%nat) as Hsub.
  { intros leads Hs. split.
    - apply (sublist_NoDup _ (Models.id <$> Orm.objects t)).
      + rewrite objects_ids. apply NoDup_fst_map_to_list.
      + by apply fmap_sublist.
    - apply sublist_length in Hs. unfold Orm.objects in Hs.
      by rewrite length_fmap, length_map_to_list in Hs. }
  exists (match id with
          | Some i => match t !! i with
                      | Some c => [Models.mkLead i c]
                      | None => []
                      end
          | None => List.filter
                      (Spec.matches name source interest_level status salesperson)
                      (Orm.objects t)
          end), (Orm.objects t).
  rewrite get_leads_unfiltered_run.
  assert (sublist
            match id with
            | Some i => match t !! i with
                        | Some c => [Models.mkLead i c]
                        | None => []
                        end
            | None => List.filter
                        (Spec.matches name source interest_level status
                                      salesperson)
                        (Orm.objects t)
            end (Orm.objects t)) as Hs.
  { destruct id as [i|]; [|apply filter_sublist].
    rewrite <-select_by_id. apply filter_sublist. }
  destruct (Hsub _ Hs) as [Hnd Hlen].
  split; [apply get_leads_returns|]. split; [done|].
  split; [intros lead Hin; by apply (elem_of_sublist _ _ _ Hin Hs)|].
  split; [|done].
  intros lead Hin. apply elem_of_objects. by apply (elem_of_sublist _ _ _ Hin Hs).
Qed.

Lemma model_validate_shown (lead : Models.Lead) (r : Schema.LeadRead) :
  Schema.model_validate lead = Some r ↔ Spec.shown_as lead r.
Proof.
  destruct lead as [i [a b c d e f]], r as [i' a' b' c' d' e' f'].
  unfold Schema.model_validate, Schema.validate_str, Spec.shown_as. cbn.
  split.
  - destruct a as [a|]; cbn; [|done].
    destruct (Nat.leb_spec (String.length a) 100); cbn; [|done].
    destruct b as [b|]; cbn; [|done].
    destruct (Nat.leb_spec (String.length b) 100); cbn; [|done].
    destruct c, d, e, f; cbn; try done.
    by intros [= <- <- <- <- <- <- <-].
  - intros (-> & [= -> -> -> -> -> ->] & Ha & Hb). cbn.
    apply Nat.leb_le in Ha, Hb. by rewrite Ha, Hb.
Qed.

Lemma serialize_response_shown (leads : list Models.Lead)
    (body : list Schema.LeadRead) :
  serialize_response leads = Ok body ↔ Forall2 Spec.shown_as leads body.
Proof.
  revert body. induction leads as [|lead leads IH]; intros body; cbn.
  - split; [by intros [= <-]; constructor | by intros ->%Forall2_nil_inv_l].
  - destruct (Schema.model_validate lead) as [r|] eqn:Hr.
    + destruct (serialize_response leads) as [rs|] eqn:Hrs; cbn.
      * split.
        -- intros [= <-]. constructor; [by apply model_validate_shown|].
           by apply IH.
        -- intros (r' & rs' & Hr' & Hrs' & ->)%Forall2_cons_inv_l.
           apply model_validate_shown in Hr'. apply IH in Hrs'. congruence.
      * split; [done|].
        intros (r' & rs' & _ & Hrs' & ->)%Forall2_cons_inv_l.
        by apply IH in Hrs'.
    + split; [done|].
      intros (r' & rs' & Hr' & _ & ->)%Forall2_cons_inv_l.
      apply model_validate_shown in Hr'. congruence.
Qed.

Lemma serialize_response_raises (leads : list Models.Lead) (e : Exn) :
  serialize_response leads = Raise e → e = ResponseValidationError.
Proof.
  induction leads as [|l ls IH]; cbn; [done|].
  destruct (Schema.model_validate l); [|by intros [= <-]].
  destruct (serialize_response ls); cbn; [done|].
  intros [= <-]. by apply IH.
Qed.

(** X10.  [GET /leads/] answers 200 exactly when every lead its query
    selects has all six texts and a name and a contact of at most 100
    characters; the body then shows the selected leads one for one, in
    order, with their stored values.  In every other case the answer is
    the 500 of a failed response validation. *)
Theorem listing_answers_200_exactly_for_complete_leads (id : option Z)
    (name source interest_level status salesperson : option string)
    (db : Table) (body : list Schema.LeadRead) :
  (Main.GET_leads id name source interest_level status salesperson db
   = Response200 body
   ↔ ∃ leads,
       (Request.get_database_session
          (Main.get_leads id name source interest_level status salesperson)
          db).1 = Ok leads
       ∧ Forall2 Spec.shown_as leads body)
  ∧ (Main.GET_leads id name source interest_level status salesperson db
     = ErrorResponse 500 (Text "Internal Server Error")
     ∨ ∃ body',
         Main.GET_leads id name source interest_level status salesperson db
         = Response200 body').
Proof.
  pose proof (get_leads_returns id name source interest_level status
                salesperson (Request.mk (Orm.SessionLocal db) [])) as Hrun.
  set (leads := match id with Some _ => _ | None => _ end) in Hrun.
  unfold Main.GET_leads, Request.get_database_session. rewrite Hrun.
  cbn [fst mbind Result_bind].
  pose proof (serialize_response_shown leads) as Hshown.
  destruct (serialize_response leads) as [rs|e] eqn:Hrs; cbn.
  - split; [|eauto]. split.
    + intros [= <-]. exists leads. split; [done|]. by apply Hshown.
    + intros (leads' & [= <-] & Hall). apply Hshown in Hall. congruence.
  - apply serialize_response_raises in Hrs as ->.
    split; [|by left]. split; [done|].
    intros (leads' & [= <-] & Hall). by apply Hshown in Hall.
Qed.

Lemma listing_witness :
  Main.GET_leads (Some 5) None None None None None Sample.stored
  = Response200 [Schema.mkLeadRead 5 "Eve" "eve@example.org" "web" "low"
                                   "new" "Kim"].
Proof.
  apply (proj1 (listing_answers_200_exactly_for_complete_leads
                  (Some 5) None None None None None Sample.stored _)).
  exists [Sample.eve]. split; [reflexivity|].
  repeat constructor; cbn; lia.
Defined.

(** X11.  A lead uploaded with all its fields can be read back: after an
    accepted CSV upload, [GET /leads/?id=...] with the id of a row that was
    built and merged, and that no later row of the file overrides, answers
    200 with exactly one record, which carries the fields of that row. *)
Theorem uploaded_lead_is_read_back `{E : Externals}
    (file : UploadFile.t) (db : Table) (text : string)
    (before after : list Row) (row : Row)
    (lead : Models.Lead) (r : Schema.LeadRead)
    (name source interest_level status salesperson : option string) :
  Main.is_type (UploadFile.content_type file) "text/csv" = true →
  decode (UploadFile.read file) = Ok text →
  DictReader text = yield_all (before ++ row :: after) →
  commit_fault db (Spec.upsert_rows (before ++ row :: after) ∅) = None →
  Main.Lead_of_row row = Ok lead →
  merge_fault lead = None →
  Forall (λ later, Spec.lead_id later ≠ Some (Models.id lead)) after →
  Spec.shown_as lead r →
  Main.GET_leads (Some (Models.id lead)) name source interest_level status
                 salesperson (Main.POST_files file db).2
  = Response200 [r].
Proof.
  intros Hcsv Hdec Hread Hcommit Hlead Hmerge Hafter Hshown.
  destruct (rows_of_yield_all (before ++ row :: after)) as [Hrows Hend].
  rewrite (POST_files_csv _ _ Hcsv), Hdec, Hread. cbv zeta.
  rewrite Hend, Hrows, Hcommit. cbn [snd].
  unfold Main.GET_leads, Request.get_database_session.
  rewrite get_leads_by_id_run. cbn [fst Request.session Orm.SessionLocal Orm.table].
  rewrite (lookup_union_Some_l _ _ _ _
             (upsert_rows_last_wins before after row lead ∅ Hlead Hmerge Hafter)).
  apply model_validate_shown in Hshown.
  destruct lead as [i c]. cbn in *. by rewrite Hshown.
Qed.

Lemma read_back_witness :
  Main.GET_leads (Some 1) None None None None None
    (@Main.POST_files Sample.reader Sample.csv Sample.stored).2
  = Response200 [Schema.mkLeadRead 1 "Ann B" "ann@example.org" "fair" "low"
                                   "won" "Lee"].
Proof.
  apply (@uploaded_lead_is_read_back Sample.reader Sample.csv Sample.stored ""
           [Sample.ann; Sample.bad_id; Sample.short; Sample.no_id] []
           Sample.ann_again
           (Models.mkLead 1
              (Models.mkCols (Some "Ann B") (Some "ann@example.org")
                 (Some "fair") (Some "low") (Some "won") (Some "Lee"))));
    try reflexivity; [constructor|].
  repeat split; cbn; lia.
Defined.


(** ** Startup and the status probe *)

(** [startup_event] where the hosting flag is not set. *)
Lemma startup_event_run (w : Dbconf.World) (t : list Dbconf.Event) :
  truthy (Dbconf.RAILWAY_ENVIRONMENT_NAME w) = false →
  Main.startup_event w t
  = (match Dbconf.select_1 w with
     | Some e =>
         if is_SQLAlchemyError e then
           Raise (RuntimeError
                    "Database issues detected - may have unexpected behaviors")
         else Raise e
     | None =>
         if (Spec.gate w Spec.startup_checks).2 then Ok tt
         else Raise (RuntimeError
                       "Database issues detected - may have unexpected behaviors")
     end,
     t ++ (Dbconf.Ran <$> (Spec.gate w Spec.startup_checks).1)).
Proof.
  intros Hflag. unfold Main.startup_event. run.
  rewrite (comprehensive_db_check_run w t Hflag).
  destruct (Dbconf.select_1 w) as [e|]; [by destruct (is_SQLAlchemyError e)|].
  by destruct ((Spec.gate w Spec.startup_checks).2).
Qed.

Lemma startup_event_hosted (w : Dbconf.World) (t : list Dbconf.Event) :
  truthy (Dbconf.RAILWAY_ENVIRONMENT_NAME w) = true →
  Main.startup_event w t = (Ok tt, t).
Proof.
  intros Hflag. unfold Main.startup_event, Dbconf.comprehensive_db_check. run.
  by rewrite Hflag.
Qed.

Lemma all_pass_gate (w : Dbconf.World) :
  Forall (λ c, Spec.passes w c = true) Spec.startup_checks ↔
  Spec.gate w Spec.startup_checks = (Spec.startup_checks, true).
Proof.
  unfold Spec.startup_checks. rewrite !Forall_cons, Forall_nil.
  cbn [Spec.gate].
  destruct (Spec.passes w Dbconf.Connection); [|split; [by intros [? _]|done]].
  destruct (Spec.passes w Dbconf.MigrationStatus);
    [|split; [by intros (_ & ? & _)|done]].
  destruct (Spec.passes w Dbconf.SchemaDrift);
    [done | split; [by intros (_ & _ & ? & _)|done]].
Qed.

(** X12.  [startup_event] returns exactly when the hosting flag is set
    or all three checks pass.  With the flag set it returns without
    looking at the database at all, also when the database cannot be
    reached; without it, a return means the three checks were run, in
    order, and passed. *)
Theorem startup_returns_exactly_when_hosted_or_healthy
    (w : Dbconf.World) (t : list Dbconf.Event) :
  (truthy (Dbconf.RAILWAY_ENVIRONMENT_NAME w) = true →
   Main.startup_event w t = (Ok tt, t))
  ∧ (truthy (Dbconf.RAILWAY_ENVIRONMENT_NAME w) = false →
     ∀ t', Main.startup_event w t = (Ok tt, t') →
           t' = t ++ [Dbconf.Ran Dbconf.Connection;
                      Dbconf.Ran Dbconf.MigrationStatus;
                      Dbconf.Ran Dbconf.SchemaDrift])
  ∧ ((∃ t', Main.startup_event w t = (Ok tt, t'))
     ↔ truthy (Dbconf.RAILWAY_ENVIRONMENT_NAME w) = true
       ∨ Forall (λ c, Spec.passes w c = true) Spec.startup_checks).
Proof.
  split; [apply startup_event_hosted|].
  destruct (truthy (Dbconf.RAILWAY_ENVIRONMENT_NAME w)) eqn:Hflag.
  { split; [done|]. split; [by left|]. intros _. exists t.
    by apply startup_event_hosted. }
  rewrite (startup_event_run w t Hflag).
  pose proof (all_pass_gate w) as Hall.
  assert (Dbconf.select_1 w = None ∨ ∃ e, Dbconf.select_1 w = Some e)
    as [Hsel|[e Hsel]] by (destruct (Dbconf.select_1 w); eauto).
  - rewrite Hsel.
    destruct (Spec.gate w Spec.startup_checks) as [ran verdict] eqn:Hgate.
    cbn [fst snd]. destruct verdict.
    + pose proof (gate_tried w Spec.startup_checks) as (later & Hsplit & _ & Hok & _).
      rewrite Hgate in Hsplit, Hok. cbn [fst snd] in Hsplit, Hok.
      rewrite (Hok eq_refl), app_nil_r in Hsplit. subst ran.
      split; [by intros _ t' [= <-]|].
      split; [intros _; right; by apply Hall | eauto].
    + split; [by intros _ t' [=]|].
      split; [by intros [t' [=]]|].
      intros [?|Hpass%Hall]; [done|]. congruence.
  - rewrite Hsel.
    split; [by destruct (is_SQLAlchemyError e); intros _ t' [=]|].
    split; [by destruct (is_SQLAlchemyError e); intros [t' [=]]|].
    intros [?|Hpass]; [done|].
    apply Forall_cons in Hpass as [Hconn _]. cbn in Hconn.
    by rewrite Hsel in Hconn.
Qed.

Lemma startup_witness :
  Main.startup_event Sample.unreachable_hosted [] = (Ok tt, []).
Proof.
  apply (proj1 (startup_returns_exactly_when_hosted_or_healthy
                  Sample.unreachable_hosted [])).
  reflexivity.
Defined.

(** X13.  The main block never reaches [uvicorn.run]: in every world it
    ends with an exception after nothing but checks.  When
    [startup_event] returns, the exception is the [NameError] for [os],
    which [main.py] uses without importing it. *)
Theorem main_never_serves (w : Dbconf.World) (t : list Dbconf.Event) :
  ∃ e ran,
    Main.main w t = (Raise e, t ++ (Dbconf.Ran <$> ran))
    ∧ ((∃ t', Main.startup_event w t = (Ok tt, t')) → e = NameError "os").
Proof.
  unfold Main.main, Main.port.
  destruct (truthy (Dbconf.RAILWAY_ENVIRONMENT_NAME w)) eqn:Hflag.
  - exists (NameError "os"), []. run.
    rewrite (startup_event_hosted w t Hflag). cbn. by rewrite app_nil_r.
  - run. rewrite (startup_event_run w t Hflag).
    destruct (Dbconf.select_1 w) as [e|]; [destruct (is_SQLAlchemyError e)|];
      [| |destruct ((Spec.gate w Spec.startup_checks).2)];
      cbn; eexists _, _; (split; [reflexivity|]);
      first [done | by intros [t' [=]]].
Qed.

(** X14.  [GET /db-status] answers 200 with status "connected" exactly
    when the connection test goes through; when the test fails with a
    [SQLAlchemyError] the answer is 500 "Database connection failed".  The
    probe does not look at the hosting flag.  When the test fails and the
    flag is not set, [startup_event] raises: a process started then does
    not come up. *)
Theorem db_status_reports_the_connection (w : Dbconf.World) :
  (Dbconf.select_1 w = None ↔
   Main.GET_db_status w
   = Response200 (Main.Status.mk "connected" "Database connection successful"))
  ∧ (∀ body, Main.GET_db_status w = Response200 body →
             Dbconf.select_1 w = None)
  ∧ (∀ e, Dbconf.select_1 w = Some e →
          (is_SQLAlchemyError e = true →
           Main.GET_db_status w
           = ErrorResponse 500 (Text "Database connection failed"))
          ∧ (truthy (Dbconf.RAILWAY_ENVIRONMENT_NAME w) = false →
             ∀ t, ∃ e' t', Main.startup_event w t = (Raise e', t'))).
Proof.
  unfold Main.GET_db_status, Main.db_status, Dbconf.test_connection,
    Dbconf.emit. run.
  destruct (Dbconf.select_1 w) as [e|] eqn:Hsel; cbn.
  - split; [|split].
    + split; [done|]. destruct (is_SQLAlchemyError e); [done|].
      cbn. by destruct e.
    + intros body. destruct (is_SQLAlchemyError e); [done|].
      cbn. by destruct e.
    + intros e' [= <-]. split.
      * by intros ->.
      * intros Hflag t. rewrite (startup_event_run w t Hflag), Hsel.
        destruct (is_SQLAlchemyError e); eauto.
  - split; [done|]. split; [done|]. by intros e.
Qed.

Lemma db_status_witness :
  Main.GET_db_status Sample.unreachable
  = ErrorResponse 500 (Text "Database connection failed")
  ∧ ∀ t, ∃ e' t', Main.startup_event Sample.unreachable t = (Raise e', t').
Proof.
  destruct (db_status_reports_the_connection Sample.unreachable)
    as (_ & _ & H).
  destruct (H SQLAlchemyError eq_refl) as [Hstatus Hstart].
  split; [by apply Hstatus | by apply Hstart].
Defined.

(** ** The other response and request models *)

Lemma validate_str_within (n : nat) (s : string) :
  Schema.validate_str (Some n) (Some s)
  = if Models.within n (Some s) then Some s else None.
Proof. done. Qed.

Lemma validate_optional_str_within (n : nat) (v : option string) :
  Schema.validate_optional_str (Some n) v
  = if Models.within n v then Some v else None.
Proof.
  destruct v as [s|]; [|done]. cbn.
  by destruct (String.length s <=? n)%nat.
Qed.

(** X15.  Every row the [users] table can hold is readable through
    [UserRead]: the lengths [UserRead] asks for are those of the columns,
    and the record it gives carries the stored values unchanged.
    Conversely a row is readable only if name, email and phone are within
    26, 100 and 20 characters. *)
Theorem every_stored_user_is_readable (user : Models.User.t) :
  (Models.User.within_columns user = true →
   Schema.UserRead.model_validate user
   = Some (Schema.UserRead.mk
             (Models.User.id user) (Models.User.username user)
             (Models.User.email user) (Models.User.phone user)
             (Models.User.last_login user) (Models.User.is_active user)
             (Models.User.created_at user)
             (Models.User.profile_picture user)))
  ∧ (is_Some (Schema.UserRead.model_validate user) ↔
     Models.within 26 (Some (Models.User.username user)) = true
     ∧ Models.within 100 (Some (Models.User.email user)) = true
     ∧ Models.within 20 (Models.User.phone user) = true).
Proof.
  destruct user as [i name mail phone login active created picture].
  unfold Models.User.within_columns, Schema.UserRead.model_validate.
  cbn [Models.User.id Models.User.username Models.User.email Models.User.phone
       Models.User.last_login Models.User.is_active Models.User.created_at
       Models.User.profile_picture].
  rewrite !validate_str_within, validate_optional_str_within.
  destruct (Models.within 26 (Some name)), (Models.within 100 (Some mail)),
    (Models.within 20 phone); cbn; try (split; [done|]);
    try (split; [intros []; done | intros (? & ? & ?); done]).
  split.
  - intros _. by destruct picture.
  - split; [done|]. intros _. destruct picture; cbn; eauto.
Qed.

Lemma stored_user_witness :
  Schema.UserRead.model_validate Sample.user
  = Some (Schema.UserRead.mk 3 "kim" "kim@example.org" None None true
                             1700000000 None).
Proof.
  apply (proj1 (every_stored_user_is_readable Sample.user)). reflexivity.
Defined.

(** X16.  [PostRead] is narrower than the [posts] table.  A stored post
    is readable exactly when its content is not NULL and at most 500
    characters long and its title is at most 100 characters long; the
    record then carries the stored values.  So a post without content, or
    with a title of 101 to 200 characters, both of which the table holds,
    cannot be read through [PostRead]. *)
Theorem post_read_is_narrower_than_posts (post : Models.Post.t)
    (r : Schema.PostRead.t) :
  (Schema.PostRead.model_validate post = Some r ↔
   Models.Post.content post = Some (Schema.PostRead.content r)
   ∧ (String.length (Schema.PostRead.content r) ≤ 500)%nat
   ∧ (String.length (Models.Post.title post) ≤ 100)%nat
   ∧ r = Schema.PostRead.mk
           (Models.Post.id post) (Models.Post.user_id post)
           (Schema.PostRead.content r) (Models.Post.title post)
           (Models.Post.created_at post) (Models.Post.updated_at post))
  ∧ (Models.Post.content post = None →
     Schema.PostRead.model_validate post = None)
  ∧ ((100 < String.length (Models.Post.title post))%nat →
     Schema.PostRead.model_validate post = None).
Proof.
  destruct post as [i u title content created updated].
  unfold Schema.PostRead.model_validate, Schema.validate_str.
  cbn [Models.Post.id Models.Post.user_id Models.Post.title
       Models.Post.content Models.Post.created_at Models.Post.updated_at].
  split; [|split].
  - destruct content as [c|]; cbn; [|by split; [|intros [? _]]].
    destruct (Nat.leb_spec (String.length c) 500); cbn.
    + destruct (Nat.leb_spec (String.length title) 100); cbn.
      * split; [by intros [= <-] | by intros ([= ->] & _ & _ & ->)].
      * split; [done|]. intros (_ & _ & ? & _). lia.
    + split; [done|]. intros ([= ->] & ? & _). lia.
  - by intros ->.
  - intros Hlong. destruct content as [c|]; cbn; [|done].
    destruct (String.length c <=? 500)%nat; cbn; [|done].
    destruct (Nat.leb_spec (String.length title) 100); [lia|done].
Qed.

Lemma post_read_witness :
  Schema.PostRead.model_validate Sample.post_without_content = None.
Proof.
  destruct (post_read_is_narrower_than_posts Sample.post_without_content
              (Schema.PostRead.mk 0 0 "" "" 0 0)) as (_ & H & _).
  apply H. reflexivity.
Defined.

(** X17.  A body that [UserCreate] accepts carries a string under
    [username] and under [email], and its name, email and phone fit the
    columns of [users] (26, 100 and 20 characters).  Keys that are not
    fields are ignored.  [profile_picture] has no limit: any string is
    taken, although the column is [String(255)]. *)
Theorem accepted_user_fits_the_columns (body : gmap string Json)
    (u : Schema.UserCreate.t) :
  Schema.UserCreate.model_validate body = Some u →
  body !! "username" = Some (JString (Schema.UserCreate.username u))
  ∧ body !! "email" = Some (JString (Schema.UserCreate.email u))
  ∧ Models.within 26 (Some (Schema.UserCreate.username u)) = true
  ∧ Models.within 100 (Some (Schema.UserCreate.email u)) = true
  ∧ Models.within 20 (Schema.UserCreate.phone u) = true
  ∧ (∀ key value,
       key ∉ ["username"; "email"; "phone"; "profile_picture"] →
       Schema.UserCreate.model_validate (<[key := value]> body) = Some u)
  ∧ (∀ picture,
       Schema.UserCreate.model_validate
         (<["profile_picture" := JString picture]> body)
       = Some (Schema.UserCreate.mk
                 (Schema.UserCreate.username u) (Schema.UserCreate.email u)
                 (Schema.UserCreate.phone u) (Some picture))).
Proof.
  unfold Schema.UserCreate.model_validate.
  intros Hvalid.
  assert (∀ key value,
            key ∉ ["username"; "email"; "phone"; "profile_picture"] →
            Schema.UserCreate.model_validate (<[key := value]> body) = Some u)
    as Hother.
  { intros key value Hkey. rewrite !not_elem_of_cons in Hkey.
    destruct Hkey as (? & ? & ? & ? & _).
    unfold Schema.UserCreate.model_validate.
    by rewrite !lookup_insert_ne. }
  assert (∀ picture,
       Schema.UserCreate.model_validate
         (<["profile_picture" := JString picture]> body)
       = (λ u, Schema.UserCreate.mk
                 (Schema.UserCreate.username u) (Schema.UserCreate.email u)
                 (Schema.UserCreate.phone u) (Some picture))
         <$> Some u) as Hpicture.
  { intros picture. unfold Schema.UserCreate.model_validate.
    rewrite lookup_insert_eq, !lookup_insert_ne by done.
    rewrite <-Hvalid. cbn.
    destruct (Schema.UserCreate.required_str _ (body !! "username")); cbn; [|done].
    destruct (Schema.UserCreate.required_str _ (body !! "email")); cbn; [|done].
    destruct (Schema.UserCreate.optional_str _ (body !! "phone")); cbn; [|done].
    by destruct (Schema.UserCreate.optional_str _ (body !! "profile_picture")). }
  unfold Schema.UserCreate.required_str, Schema.UserCreate.optional_str in Hvalid.
  destruct (body !! "username") as [[|name| |]|]; try done.
  destruct (body !! "email") as [[|mail| |]|];
    try (by rewrite validate_str_within in Hvalid;
         destruct (Models.within 26 (Some name))).
  rewrite !validate_str_within in Hvalid.
  destruct (Models.within 26 (Some name)) eqn:Hname; [|done].
  destruct (Models.within 100 (Some mail)) eqn:Hmail; [|done].
  cbn in Hvalid.
  assert (∃ phone picture,
            u = Schema.UserCreate.mk name mail phone picture
            ∧ Models.within 20 phone = true) as (phone & picture & -> & Hphone).
  { destruct (body !! "phone") as [[|p| |]|]; cbn in Hvalid; try done.
    - destruct (body !! "profile_picture") as [[|q| |]|]; cbn in Hvalid;
        try done; injection Hvalid as <-; eauto.
    - destruct (String.length p <=? 20)%nat eqn:Hp; cbn in Hvalid; [|done].
      destruct (body !! "profile_picture") as [[|q| |]|]; cbn in Hvalid;
        try done; injection Hvalid as <-; eauto.
    - destruct (body !! "profile_picture") as [[|q| |]|]; cbn in Hvalid;
        try done; injection Hvalid as <-; eauto. }
  repeat split; done.
Qed.

Lemma accepted_user_witness :
  Models.within 20 None = true
  ∧ Schema.UserCreate.model_validate Sample.new_user
    = Some (Schema.UserCreate.mk "lee" "lee@example.org" None None).
Proof.
  destruct (accepted_user_fits_the_columns Sample.new_user
              (Schema.UserCreate.mk "lee" "lee@example.org" None None) eq_refl)
    as (_ & _ & _ & _ & Hphone & _).
  split; [exact Hphone | reflexivity].
Defined.
